(** * tuicpp: a shallow embedding of the window hierarchy and its widgets

    The development follows [src/tuicpp.hpp].  Every C++ class becomes a
    module holding a record for the object and one function per member
    function; member functions that draw thread the terminal through a small
    state-and-failure monad. *)

From Stdlib Require Import ZArith Lia Ascii.
From stdpp Require Import base numbers option list strings gmap.

Local Open Scope Z_scope.

#[local] Set Warnings "-clear-no-such-hyp".

(** ** Machine integers

    [int] is the 32-bit two's-complement integer and [size_t] the 64-bit
    unsigned integer of the LP64 targets ncurses runs on.  Values live in [Z];
    [to_int] and [to_size_t] are the conversions the compiler inserts, with
    the wrap-around written out. *)

Definition int_min : Z := - 2 ^ 31.
Definition int_max : Z := 2 ^ 31 - 1.
Definition size_max : Z := 2 ^ 64 - 1.

Definition to_int (z : Z) : Z := (z + 2 ^ 31) mod 2 ^ 32 - 2 ^ 31.
Definition to_size_t (z : Z) : Z := z mod 2 ^ 64.

Definition is_int (z : Z) : Prop := int_min <= z <= int_max.

(** [s.length()], [v.size()]: a [size_t]. *)
Definition strlen (s : string) : Z := Z.of_nat (String.length s).
Definition vsize {A} (l : list A) : Z := Z.of_nat (length l).

(** ** The terminal

    ncurses itself is outside the repository.  The model keeps what the
    widgets can observe or cause: the geometry of every window created so
    far (a [WINDOW *] is the index of its entry) and the sequence of drawing
    calls issued. *)

Record ScreenInfo := mkScreenInfo {
  height : Z;
  width : Z;
  y : Z;
  x : Z
}.

Abbreviation WINDOW := nat.

Inductive attr := A_NORMAL | A_REVERSE.

Inductive glyph :=
| ACS_ULCORNER | ACS_URCORNER | ACS_LLCORNER | ACS_LRCORNER
| ACS_HLINE | ACS_VLINE | ACS_TTEE | ACS_BTEE | ACS_LTEE | ACS_RTEE
| ACS_PLUS.

Inductive call :=
| c_box (w : WINDOW)
| c_wrefresh (w : WINDOW)
| c_werase (w : WINDOW)
| c_wclrtoeol (w : WINDOW)
| c_wmove (w : WINDOW) (y x : Z)
| c_mvwprintw (w : WINDOW) (y x : Z) (s : string)
| c_mvwaddch (w : WINDOW) (y x : Z) (g : glyph)
| c_wattron (w : WINDOW) (a : attr)
| c_wattrset (w : WINDOW) (a : attr)
| c_keypad (w : WINDOW) (b : bool)
| c_noecho
| c_curs_set (v : Z).

Record term := mkTerm {
  wins : list ScreenInfo;
  calls : list call
}.

Definition term0 : term := mkTerm [] [].

(** ** Outcomes

    A member function returns normally, leaves by a C++ exception, runs into
    undefined behaviour (an out-of-range [operator[]]), or blocks for ever in
    [wgetch] because no key is left. *)

Inductive exn := length_error | out_of_range.

Inductive outcome (A : Type) :=
| Done (a : A)
| Throw (e : exn)
| Undefined
| Blocked.
Arguments Done {A} a.
Arguments Throw {A} e.
Arguments Undefined {A}.
Arguments Blocked {A}.

Definition M (A : Type) : Type := term -> outcome (A * term).

Definition ret {A} (a : A) : M A := fun t => Done (a, t).

Definition bind {A B} (m : M A) (k : A -> M B) : M B :=
  fun t =>
    match m t with
    | Done (a, t') => k a t'
    | Throw e => Throw e
    | Undefined => Undefined
    | Blocked => Blocked
    end.

Definition throw {A} (e : exn) : M A := fun _ => Throw e.
Definition undefined {A} : M A := fun _ => Undefined.
Definition blocked {A} : M A := fun _ => Blocked.

(** A constructor reports a configuration error by throwing. *)
Definition reports_error {A} (o : outcome A) : Prop := exists e, o = Throw e.

#[export] Instance M_ret : MRet M := @ret.
#[export] Instance M_bind : MBind M := fun A B k m => bind m k.

(** [m] returns normally from [t] and has only issued drawing calls: the
    windows are as they were. *)
Definition draws {A} (m : M A) (t : term) : Prop :=
  exists a t', m t = Done (a, t') /\ wins t' = wins t.

(** [v[i]] on a vector: undefined behaviour out of range. *)
Definition at_ {A} (l : list A) (i : nat) : M A :=
  match l !! i with
  | Some a => ret a
  | None => undefined
  end.

(** [for (i = 0; i < n; i++) body(i)], started at index [i]; [s] holds the
    locals the body updates. *)
Fixpoint for_acc {St} (i n : nat) (body : nat -> St -> M St) (s : St) : M St :=
  match n with
  | O => ret s
  | S n' => s' ← body i s; for_acc (S i) n' body s'
  end.

Definition for_ (n : nat) (body : nat -> M unit) : M unit :=
  for_acc 0 n (fun i _ => body i) tt.

(** *** Primitives *)

Definition emit (c : call) : M unit :=
  fun t => Done (tt, mkTerm (wins t) (calls t ++ [c])).

Definition newwin (h w y0 x0 : Z) : M WINDOW :=
  fun t => Done (length (wins t),
                 mkTerm (wins t ++ [mkScreenInfo h w y0 x0]) (calls t)).

Definition wresize (win : WINDOW) (h w : Z) : M unit :=
  fun t => Done (tt, mkTerm (alter (fun g => mkScreenInfo h w (y g) (x g)) win (wins t))
                            (calls t)).

Definition box (w : WINDOW) : M unit := emit (c_box w).
Definition wrefresh (w : WINDOW) : M unit := emit (c_wrefresh w).
Definition werase (w : WINDOW) : M unit := emit (c_werase w).
Definition wclrtoeol (w : WINDOW) : M unit := emit (c_wclrtoeol w).
Definition wmove (w : WINDOW) (y0 x0 : Z) : M unit := emit (c_wmove w y0 x0).
Definition mvwprintw (w : WINDOW) (y0 x0 : Z) (s : string) : M unit :=
  emit (c_mvwprintw w y0 x0 s).
Definition mvwaddch (w : WINDOW) (y0 x0 : Z) (g : glyph) : M unit :=
  emit (c_mvwaddch w y0 x0 g).
Definition wattron (w : WINDOW) (a : attr) : M unit := emit (c_wattron w a).
Definition wattrset (w : WINDOW) (a : attr) : M unit := emit (c_wattrset w a).
Definition keypad (w : WINDOW) (b : bool) : M unit := emit (c_keypad w b).
Definition noecho : M unit := emit c_noecho.
Definition curs_set (v : Z) : M unit := emit (c_curs_set v).

(** The geometry of the window behind a handle. *)
Definition geometry (t : term) (w : WINDOW) : option ScreenInfo := wins t !! w.

(** ** The window hierarchy *)

Module PlainWindow.

Record t := mk {
  info : ScreenInfo;
  _main : WINDOW
}.

(** [PlainWindow(int height, int width, int y, int x)] *)
Definition ctor (h w y0 x0 : Z) : M t :=
  m ← newwin h w y0 x0;
  ret (mk (mkScreenInfo h w y0 x0) m).

Definition refresh (p : t) : M unit := wrefresh (_main p).
Definition erase (p : t) : M unit := werase (_main p).
Definition resize (p : t) (h w : Z) : M unit := wresize (_main p) h w.

Definition mvprintf (p : t) (y0 x0 : Z) (s : string) : M unit :=
  mvwprintw (_main p) y0 x0 s;;
  wrefresh (_main p).

Definition mvadd_char (p : t) (y0 x0 : Z) (g : glyph) : M unit :=
  mvwaddch (_main p) y0 x0 g;;
  wrefresh (_main p).

Definition cursor (p : t) (y0 x0 : Z) : M unit := wmove (_main p) y0 x0.
Definition attribute_on (p : t) (a : attr) : M unit := wattron (_main p) a.
Definition attribute_set (p : t) (a : attr) : M unit := wattrset (_main p) a.

End PlainWindow.

Module BoxedWindow.

Record t := mk {
  plain : PlainWindow.t;
  _box : WINDOW
}.

Definition info (b : t) : ScreenInfo := PlainWindow.info (plain b).
Definition _main (b : t) : WINDOW := PlainWindow._main (plain b).

(** [BoxedWindow(int height, int width, int y, int x)]: the base-class
    constructor runs first, then [_main] is assigned again. *)
Definition ctor (h w y0 x0 : Z) : M t :=
  p ← PlainWindow.ctor h w y0 x0;
  b ← newwin h w y0 x0;
  m ← newwin (to_int (h - 2)) (to_int (w - 2)) (to_int (y0 + 1)) (to_int (x0 + 1));
  box b;;
  wrefresh b;;
  ret (mk (PlainWindow.mk (PlainWindow.info p) m) b).

End BoxedWindow.

Module DecoratedWindow.

Record t := mk {
  boxed : BoxedWindow.t;
  _title : WINDOW;
  _title_str : string
}.

Definition info (d : t) : ScreenInfo := BoxedWindow.info (boxed d).
Definition _main (d : t) : WINDOW := BoxedWindow._main (boxed d).
Definition _box (d : t) : WINDOW := BoxedWindow._box (boxed d).
Definition plain (d : t) : PlainWindow.t := BoxedWindow.plain (boxed d).

(** [static constexpr int decoration_height = 5;] *)
Definition decoration_height : Z := 5.

(** [DecoratedWindow(const std::string &title, int height, int width,
    int y, int x)] *)
Definition ctor (title : string) (h w y0 x0 : Z) : M t :=
  b ← BoxedWindow.ctor h w y0 x0;
  m ← newwin (to_int (h - 5)) (to_int (w - 2)) (to_int (y0 + 4)) (to_int (x0 + 1));
  tw ← newwin 3 (to_int (w - 2)) (to_int (y0 + 1)) (to_int (x0 + 1));
  box tw;;
  let remaining := to_int (to_int (w - 2) - strlen title) in
  mvwprintw tw 1 (remaining ÷ 2) title;;
  wrefresh tw;;
  ret (mk (BoxedWindow.mk (PlainWindow.mk (BoxedWindow.info b) m)
                          (BoxedWindow._box b))
          tw title).

(** [DecoratedWindow(const std::string &title, const ScreenInfo &info)] *)
Definition ctor_info (title : string) (i : ScreenInfo) : M t :=
  ctor title (height i) (width i) (y i) (x i).

(** [refresh() const override] *)
Definition refresh (d : t) : M unit :=
  PlainWindow.refresh (plain d);;
  wrefresh (_title d).

(** The geometries whose derived coordinates are again [int]s, so that no
    subtraction or addition of the constructor wraps around. *)
Definition fits (h w y0 x0 : Z) : Prop :=
  is_int (h - 5) /\ is_int (w - 2) /\
  is_int (y0 + 1) /\ is_int (y0 + 4) /\ is_int (x0 + 1).

End DecoratedWindow.

(** ** Specialized window types *)

(** Characters appended by [insert(0, n, ' ')], [append(n, ' ')],
    [resize(n, ' ')] and [std::string(n, ' ')]. *)
Definition spaces (n : nat) : string := String.string_of_list_ascii (replicate n " "%char).

(** A character count that went through [int]: a negative [int] converts to
    a [size_t] of at least [2^64 - 2^31], beyond what a string can hold, and
    the string operation leaves by an exception. *)
Definition spaces_int (n : Z) : M string :=
  if bool_decide (n < 0) then throw length_error else ret (spaces (Z.to_nat n)).

(** [std::string::max_size()]: the longest string the library builds, which
    is [2^62 - 1] for libstdc++ on these targets.  A request beyond it
    leaves by [std::length_error] before anything is allocated; within it
    the allocation is taken to succeed, as it is for every other string of
    the program. *)
Definition string_max_size : Z := 2 ^ 62 - 1.

(** [std::string(n, ' ')] with [n] a [size_t]. *)
Definition string_fill (n : Z) : M string :=
  if bool_decide (string_max_size < n) then throw length_error
  else ret (spaces (Z.to_nat n)).

(** [str.append(pad)] *)
Definition string_append (str pad : string) : M string :=
  if bool_decide (string_max_size - strlen str < strlen pad) then throw length_error
  else ret (str +:+ pad).

Module SelectionWindow.

Abbreviation OptionList := (list string).
Abbreviation Selection := (gset Z).

Record Option := mkOption {
  centered : bool;
  multi : bool
}.

Record t := mk {
  base : DecoratedWindow.t;
  _option : Option;
  _option_list : OptionList;
  _line : Z;
  _terminate : bool
}.

Definition info (w : t) : ScreenInfo := DecoratedWindow.info (base w).
Definition plain (w : t) : PlainWindow.t := DecoratedWindow.plain (base w).

Definition set_line (w : t) (l : Z) : t :=
  mk (base w) (_option w) (_option_list w) l (_terminate w).
Definition set_terminate (w : t) (b : bool) : t :=
  mk (base w) (_option w) (_option_list w) (_line w) b.

Section keys.
(** The key codes of [<ncurses.h>]. *)
Variables KEY_UP KEY_DOWN : Z.

(** [void _handle_key(int c, Selection &selected)] *)
Definition _handle_key (c : Z) (w : t) (selected : Selection) : t * Selection :=
  let w := if bool_decide (c = KEY_UP) then set_line w (to_int (_line w - 1)) else w in
  let w := if bool_decide (c = KEY_DOWN) then set_line w (to_int (_line w + 1)) else w in
  let size := to_int (vsize (_option_list w)) in
  let w :=
    if multi (_option w)
    then set_line w (Z.max 0 (Z.min (_line w) size))
    else set_line w (Z.max 0 (Z.min (_line w) (to_int (size - 1)))) in
  let w := if bool_decide (c = 27) then set_terminate w true else w in
  if bool_decide (c = 10) then
    if negb (multi (_option w)) then
      (set_terminate w true, {[ _line w ]} ∪ selected)
    else if bool_decide (_line w = size) then
      (set_terminate w true, selected)
    else if bool_decide (_line w ∈ selected) then
      (w, selected ∖ {[ _line w ]})
    else
      (w, {[ _line w ]} ∪ selected)
  else (w, selected).

(** [void _print_ok(bool highlight)] *)
Definition _print_ok (w : t) (highlight : bool) : M unit :=
  (if highlight then PlainWindow.attribute_set (plain w) A_REVERSE else ret tt);;
  PlainWindow.mvprintf (plain w)
    (to_int (height (info w) - 6)) (to_int (width (info w) ÷ 2 - 4)) "[ OK ]";;
  (if highlight then PlainWindow.attribute_set (plain w) A_NORMAL else ret tt).

(** The padding of one option when [centered]. *)
Definition pad_option (width : Z) (str : string) : M string :=
  let len := to_int (strlen str) in
  let pad_left := to_int (width - len) ÷ 2 in
  let pad_right := to_int (to_int (width - len) - pad_left) in
  l ← spaces_int pad_left;
  r ← spaces_int pad_right;
  ret (l +:+ str +:+ r).

Fixpoint pad_options (width : Z) (l : OptionList) : M OptionList :=
  match l with
  | [] => ret []
  | str :: l' =>
      s ← pad_option width str;
      r ← pad_options width l';
      ret (s :: r)
  end.

(** [SelectionWindow(title, info, option_list, option)] *)
Definition ctor (title : string) (i : ScreenInfo) (option_list : OptionList)
    (option : Option) : M t :=
  d ← DecoratedWindow.ctor_info title i;
  ol ← (if centered option
        then pad_options (to_int (width i - 4)) option_list
        else ret option_list);
  ret (mk d option ol 0 false).

(** One pass of the repaint at the head of the loop body of [yield]. *)
Definition print_options (w : t) (selected : Selection) : M unit :=
  for_ (length (_option_list w)) (fun i =>
    let i' := to_int (Z.of_nat i) in
    (if bool_decide (i' ∈ selected) || bool_decide (i' = _line w)
     then PlainWindow.attribute_on (plain w) A_REVERSE else ret tt);;
    s ← at_ (_option_list w) i;
    PlainWindow.mvprintf (plain w) i' 1 s;;
    PlainWindow.attribute_set (plain w) A_NORMAL).

(** [while (!_terminate) { ... }]; [keys] are the codes [getc()] will
    return.  The keys not read are handed back. *)
Fixpoint yield_loop (keys : list Z) (w : t) (selected : Selection)
    : M (t * Selection * list Z) :=
  if _terminate w then ret (w, selected, keys)
  else
    print_options w selected;;
    (if multi (_option w)
     then _print_ok w (bool_decide (to_size_t (_line w) = vsize (_option_list w)))
     else ret tt);;
    match keys with
    | [] => blocked
    | c :: keys' =>
        let '(w', selected') := _handle_key c w selected in
        DecoratedWindow.refresh (base w');;
        yield_loop keys' w' selected'
    end.

(** [bool yield(Selection &selected)] *)
Definition yield (keys : list Z) (w : t) (selected : Selection)
    : M (bool * t * Selection * list Z) :=
  noecho;;
  curs_set 0;;
  keypad (DecoratedWindow._main (base w)) true;;
  '(w', selected', rest) ← yield_loop keys w selected;
  ret (bool_decide (Z.of_nat (size selected') > 0), w', selected', rest).

(** A sequence of keys, each handed to [_handle_key] in turn. *)
Definition handle_keys (keys : list Z) (w : t) (selected : Selection)
    : t * Selection :=
  foldl (fun ws c => _handle_key c ws.1 ws.2) (w, selected) keys.

End keys.

(** The range the highlight is clamped to: the options and, in multi
    mode, the OK control below them; with no option at all the clamp
    still leaves index [0]. *)
Definition highlight_ok (w : t) : Prop :=
  0 <= _line w <=
    (if multi (_option w)
     then vsize (_option_list w)
     else Z.max 0 (vsize (_option_list w) - 1)).

End SelectionWindow.

(** [" %s "] applied to [s]. *)
Definition fmt_cell (s : string) : string := " " +:+ s +:+ " ".

Module Table.
Section table.
(** [template <class T>] *)
Variable T : Type.

Local Abbreviation Headers := (list string).
Local Abbreviation Data := (list T).
Local Abbreviation Generator := (T -> nat -> string).
Local Abbreviation Lengths := (list Z).

Record From := mkFrom {
  headers : Headers;
  data : Data;
  generator : Generator;
  lengths : Lengths;
  auto_resize : bool
}.

Record t := mk {
  base : PlainWindow.t;
  _headers : Headers;
  _data : Data;
  _lengths : Lengths;
  _generator : Generator
}.

Definition set_lengths_field (tb : t) (ls : Lengths) : t :=
  mk (base tb) (_headers tb) (_data tb) ls (_generator tb).
Definition set_data_field (tb : t) (d : Data) : t :=
  mk (base tb) (_headers tb) d (_lengths tb) (_generator tb).
Definition set_generator_field (tb : t) (g : Generator) : t :=
  mk (base tb) (_headers tb) (_data tb) (_lengths tb) g.

(** The inner loop of [_get_lengths]: [_lengths[i]] grows to the longest
    generated cell of column [i]. *)
Definition widen (g : Generator) (i : nat) (ls : Lengths) (d : T) : Lengths :=
  let l := strlen (g d i) in
  if bool_decide (l > ls !!! i) then <[i := l]> ls else ls.

(** The body of the outer loop of [_get_lengths]. *)
Definition column_length (tb : t) (ls : Lengths) (i : nat) : Lengths :=
  foldl (widen (_generator tb) i)
        (<[i := strlen (_headers tb !!! i)]> ls) (_data tb).

(** [void _get_lengths()] *)
Definition _get_lengths (tb : t) : t :=
  set_lengths_field tb
    (foldl (column_length tb)
           (replicate (length (_headers tb)) 0)
           (seq 0 (length (_headers tb)))).

(** The width the specification gives column [i]: the larger of the
    header's length and of the longest cell generated for a row. *)
Definition spec_width (hs : Headers) (d : Data) (g : Generator) (i : nat) : Z :=
  Z.max (strlen (hs !!! i)) (foldr Z.max 0 ((fun r => strlen (g r i)) <$> d)).

(** [str = str.substr(0, len); if (str.length() < len)
    str.append(std::string(len - str.length(), ' '));]
    Under its guard the subtraction of the two [size_t]s is exact.  Both
    the temporary string and [append] leave by [std::length_error] when the
    width is more than a string can hold. *)
Definition cell (s : string) (len : Z) : M string :=
  let str := String.substring 0 (Z.to_nat len) s in
  if bool_decide (strlen str < len)
  then pad ← string_fill (len - strlen str); string_append str pad
  else ret str.

(** Every string of the table is one that a [std::string] holds: no header
    and no generated cell is longer than [max_size()]. *)
Definition real_strings (hs : Headers) (d : Data) (g : Generator) : Prop :=
  Forall (fun h => strlen h <= string_max_size) hs /\
  forall r i, r ∈ d -> strlen (g r i) <= string_max_size.

(** [x += _lengths[i] + 3] with [int x]. *)
Definition advance (x0 l : Z) : Z :=
  to_int (to_size_t (to_size_t x0 + to_size_t (l + 3))).

(** The top, middle and bottom bars differ in their three glyphs only. *)
Definition bar (tb : t) (line : Z) (gl gm gr : glyph) : M unit :=
  PlainWindow.mvadd_char (base tb) line 0 gl;;
  for_acc 0 (length (_headers tb)) (fun i x0 =>
    l ← at_ (_lengths tb) i;
    for_ (Z.to_nat (to_size_t (l + 2))) (fun j =>
      PlainWindow.mvadd_char (base tb) line (to_int (x0 + Z.of_nat j + 1)) ACS_HLINE);;
    let x1 := advance x0 l in
    (if bool_decide (Z.of_nat i ≠ to_size_t (vsize (_headers tb) - 1))
     then PlainWindow.mvadd_char (base tb) line x1 gm
     else PlainWindow.mvadd_char (base tb) line x1 gr);;
    ret x1) 0;;
  ret tt.

Definition write_headers (tb : t) (line : Z) : M unit :=
  for_acc 0 (length (_headers tb)) (fun i x0 =>
    h ← at_ (_headers tb) i;
    PlainWindow.mvprintf (base tb) line x0 (fmt_cell h);;
    l ← at_ (_lengths tb) i;
    let x1 := advance x0 l in
    PlainWindow.mvadd_char (base tb) line (to_int (x1 - 1)) ACS_VLINE;;
    ret x1) 1;;
  PlainWindow.mvadd_char (base tb) line 0 ACS_VLINE.

(** One pass of the loop over [_data]: row [n], drawn on [line]. *)
Definition write_row (tb : t) (highlight : Z) (n : nat) (d : T) (line : Z) : M unit :=
  for_acc 0 (length (_headers tb)) (fun i x0 =>
    l ← at_ (_lengths tb) i;
    str ← cell (_generator tb d i) l;
    (if bool_decide (Z.of_nat n = to_size_t highlight)
     then wattrset (PlainWindow._main (base tb)) A_REVERSE else ret tt);;
    PlainWindow.mvprintf (base tb) line x0 (fmt_cell str);;
    (if bool_decide (Z.of_nat n = to_size_t highlight)
     then wattrset (PlainWindow._main (base tb)) A_NORMAL else ret tt);;
    let x1 := advance x0 l in
    PlainWindow.mvadd_char (base tb) line (to_int (x1 - 1)) ACS_VLINE;;
    ret x1) 1;;
  PlainWindow.mvadd_char (base tb) line 0 ACS_VLINE.

(** [void _write_table(int highlight = -1) const] *)
Definition _write_table (tb : t) (highlight : Z) : M unit :=
  bar tb 0 ACS_ULCORNER ACS_TTEE ACS_URCORNER;;
  write_headers tb 1;;
  bar tb 2 ACS_LTEE ACS_PLUS ACS_RTEE;;
  line ← for_acc 0 (length (_data tb)) (fun n line =>
    d ← at_ (_data tb) n;
    write_row tb highlight n d line;;
    ret (to_int (line + 1))) 3;
  bar tb line ACS_LLCORNER ACS_BTEE ACS_LRCORNER.

(** [new_width += l + 3] over [_lengths], from [new_width = 1]. *)
Definition new_width (ls : Lengths) : Z := foldl advance 1 ls.

(** The width the specification gives an auto-resized surface:
    1 + the sum over the columns of (width + 3). *)
Definition spec_table_width (ls : Lengths) : Z :=
  1 + foldr (fun l acc => (l + 3) + acc) 0 ls.

(** Widths that the [int] arithmetic of the drawing code holds: every
    column offset, up to the width of the whole table, is an [int]. *)
Definition widths_in_int (ls : Lengths) : Prop :=
  Forall (fun l => 0 <= l) ls /\ spec_table_width ls <= int_max.

(** [Table(const From &from, int height, int width, int y, int x)] *)
Definition ctor (from : From) (h w y0 x0 : Z) : M t :=
  p ← PlainWindow.ctor h w y0 x0;
  let tb := mk p (headers from) (data from) (lengths from) (generator from) in
  let tb := if bool_decide (_lengths tb = []) then _get_lengths tb else tb in
  (if auto_resize from
   then PlainWindow.resize (base tb)
          (to_int (to_size_t (vsize (_data tb) + 4))) (new_width (_lengths tb))
   else ret tt);;
  _write_table tb (-1);;
  wrefresh (PlainWindow._main (base tb));;
  ret tb.

(** The object the constructor builds on a terminal with [k] windows. *)
Definition constructed (from : From) (h w y0 x0 : Z) (k : nat) : t :=
  let tb := mk (PlainWindow.mk (mkScreenInfo h w y0 x0) k)
              (headers from) (data from) (lengths from) (generator from) in
  if bool_decide (_lengths tb = []) then _get_lengths tb else tb.

(** [Table(const From &from, const ScreenInfo &info)] *)
Definition ctor_info (from : From) (i : ScreenInfo) : M t :=
  ctor from (height i) (width i) (y i) (x i).

(** [void set_data(const Data &data, bool auto_resize = false)] *)
Definition set_data (tb : t) (d : Data) (auto : bool) : M t :=
  PlainWindow.erase (base tb);;
  let tb := set_data_field tb d in
  tb ← (if auto
        then
          let tb := _get_lengths (set_lengths_field tb []) in
          PlainWindow.resize (base tb) (to_int (to_size_t (vsize (_data tb) + 4))) 1;;
          ret tb
        else ret tb);
  _write_table tb (-1);;
  wrefresh (PlainWindow._main (base tb));;
  ret tb.

(** [void set_lengths(const Lengths &lengths)] *)
Definition set_lengths (tb : t) (ls : Lengths) : M t :=
  PlainWindow.erase (base tb);;
  let tb := set_lengths_field tb ls in
  _write_table tb (-1);;
  wrefresh (PlainWindow._main (base tb));;
  ret tb.

(** [void set_generator(const Generator &generator)] *)
Definition set_generator (tb : t) (g : Generator) : M t :=
  PlainWindow.erase (base tb);;
  let tb := set_generator_field tb g in
  _write_table tb (-1);;
  wrefresh (PlainWindow._main (base tb));;
  ret tb.

(** [void highlight_row(int row)] *)
Definition highlight_row (tb : t) (row : Z) : M unit :=
  PlainWindow.erase (base tb);;
  _write_table tb row;;
  wrefresh (PlainWindow._main (base tb)).

End table.
End Table.

(** ** Yielders for the field editor

    A yielder holds a pointer to the value it edits; [store] is the memory
    those pointers refer to, so two yielders bound to one string share it.
    A pointer that is not in the store is dangling: using it is undefined,
    which the two virtual functions report by [None]. *)

Abbreviation store := (gmap nat string).

Definition lift {A} (o : option A) : M A :=
  match o with
  | Some a => ret a
  | None => undefined
  end.

(** [v[i]] with a [size_t] index. *)
Definition at_size {A} (l : list A) (i : Z) : M A := at_ l (Z.to_nat i).

Module Yielder.

(** [base_yielder::Ret] *)
Inductive Ret := RET_NOP | RET_PLUS | RET_DEL.

(** The two virtual functions of [base_yielder]. *)
Record t := mk {
  proc : Z -> store -> option (Ret * store);
  content : store -> option string
}.

Definition base_yielder : t :=
  mk (fun _ h => Some (RET_NOP, h)) (fun _ => Some EmptyString).

(** [pop_back()] on a non-empty string. *)
Definition pop_back (s : string) : string :=
  String.substring 0 (String.length s - 1) s.

(** [*value += ch]: the [int] is narrowed to a [char]. *)
Definition push_back (s : string) (ch : Z) : string :=
  s +:+ String (ascii_of_nat (Z.to_nat (ch mod 256))) EmptyString.

Section string.
(** [KEY_BACKSPACE] of [<ncurses.h>] and [std::isprint] of [<cctype>]. *)
Variable KEY_BACKSPACE : Z.
Variable isprint : Z -> bool.

(** [Tyielder <std::string>] *)
Definition Tyielder_string (value : nat) : t :=
  mk (fun ch h =>
        if bool_decide (ch = KEY_BACKSPACE) then
          v ← h !! value;
          if negb (bool_decide (v = EmptyString))
          then Some (RET_DEL, <[value := pop_back v]> h)
          else Some (RET_NOP, h)
        else if isprint ch then
          v ← h !! value;
          Some (RET_PLUS, <[value := push_back v ch]> h)
        else Some (RET_NOP, h))
     (fun h => h !! value).
End string.

End Yielder.

(** [f.resize(n, ' ')] *)
Definition resize_str (f : string) (n : Z) : string :=
  if bool_decide (n < strlen f)
  then String.substring 0 (Z.to_nat n) f
  else f +:+ spaces (Z.to_nat (n - strlen f)).

Module FieldEditor.

Abbreviation Fields := (list string).

Record t := mk {
  base : DecoratedWindow.t;
  _fields : Fields;
  _quit : bool;
  _escape : bool
}.

Definition info (e : t) : ScreenInfo := DecoratedWindow.info (base e).
Definition plain (e : t) : PlainWindow.t := DecoratedWindow.plain (base e).

Definition set_quit (e : t) (b : bool) : t :=
  mk (base e) (_fields e) b (_escape e).
Definition set_escape (e : t) (b : bool) : t :=
  mk (base e) (_fields e) (_quit e) b.

(** What the loop of [yield] carries from one key to the next: the object,
    the local [field], the memory behind the yielders, and, as a ghost
    trace next to the terminal's [calls], every call made to [proc] as the
    pair of the field and the key. *)
Record state := mkState {
  editor : t;
  field : Z;
  memory : store;
  dispatched : list (Z * Z)
}.

Section keys.
(** The key codes of [<ncurses.h>]. *)
Variables KEY_UP KEY_DOWN : Z.

(** [bool _check_movement_input(int c, int &field)]; the case labels
    of the [switch] are tried in the order they are written. *)
Definition _check_movement_input (c : Z) (fld : Z) (e : t) : bool * Z * t :=
  if bool_decide (c = KEY_UP) then
    (true, (if bool_decide (fld > 0) then to_int (fld - 1) else fld), e)
  else if bool_decide (c = KEY_DOWN) then
    (true, (if bool_decide (to_size_t fld < vsize (_fields e))
            then to_int (fld + 1) else fld), e)
  else if bool_decide (c = 10) then
    (true, fld, (if bool_decide (to_size_t fld = vsize (_fields e))
                 then set_quit e true else e))
  else if bool_decide (c = 9) then
    (true, (if bool_decide (to_size_t fld = vsize (_fields e))
            then 0 else to_int (fld + 1)), e)
  else if bool_decide (c = 27) then
    (true, fld, set_quit (set_escape e true) true)
  else (false, fld, e).

(** [void _print_ok(bool highlight)] *)
Definition _print_ok (e : t) (highlight : bool) : M unit :=
  (if highlight then PlainWindow.attribute_set (plain e) A_REVERSE else ret tt);;
  PlainWindow.mvprintf (plain e)
    (to_int (height (info e) - 6)) (to_int (width (info e) ÷ 2 - 4)) "[ OK ]";;
  (if highlight then PlainWindow.attribute_set (plain e) A_NORMAL else ret tt).

(** [void _update_field(int field, const std::vector <Yielder> &yielders)] *)
Definition _update_field (e : t) (fld : Z) (yielders : list Yielder.t)
    (h : store) : M unit :=
  yl ← at_size yielders (to_size_t fld);
  c ← lift (Yielder.content yl h);
  f ← at_size (_fields e) (to_size_t fld);
  let l := to_size_t (to_size_t (strlen f + 1) + strlen c) in
  substr ←
    (if bool_decide (to_size_t (l + 5) > to_size_t (width (info e))) then
       let offset := to_size_t (to_size_t (l + 4) - to_size_t (width (info e))) in
       if bool_decide (offset > strlen c) then throw out_of_range
       else ret (String.substring (Z.to_nat offset) (String.length c) c)
     else ret c);
  PlainWindow.cursor (plain e) fld 0;;
  wclrtoeol (DecoratedWindow._main (base e));;
  PlainWindow.mvprintf (plain e) fld 0 (f +:+ "  " +:+ substr).

(** [FieldEditor(title, fnames, info)] *)
Definition ctor (title : string) (fnames : Fields) (i : ScreenInfo) : M t :=
  d ← DecoratedWindow.ctor_info title i;
  let max_len := foldl (fun m f => Z.max m (strlen f)) 0 fnames in
  let fields := (fun f => resize_str f (to_size_t (max_len + 2))) <$> fnames in
  let e := mk d fields false false in
  for_acc 0 (length fields) (fun k line =>
    f ← at_ fields k;
    PlainWindow.mvprintf (plain e) line 0 (f +:+ " ");;
    ret (to_int (line + 1))) 0;;
  _print_ok e false;;
  ret e.

(** The column [cursor] is sent to: [_fields[field].size() + 2 +
    yielders[field]->content().size()]. *)
Definition cursor_column (e : t) (fld : Z) (yielders : list Yielder.t)
    (h : store) : M Z :=
  f ← at_size (_fields e) (to_size_t fld);
  yl ← at_size yielders (to_size_t fld);
  c ← lift (Yielder.content yl h);
  ret (to_int (to_size_t (to_size_t (strlen f + 2) + strlen c))).

(** The body of the [while] loop of [yield] for the key [c]; the flag
    handed back is [false] when the body leaves by [break] and [true]
    when it reaches its end or a [continue]. *)
Definition loop_body (c : Z) (yielders : list Yielder.t) (s : state)
    : M (state * bool) :=
  let '(moved, fld, e) := _check_movement_input c (field s) (editor s) in
  let s := mkState e fld (memory s) (dispatched s) in
  if _quit e then ret (s, false)
  else if bool_decide (to_size_t fld >= vsize (_fields e)) then
    curs_set 0;;
    _print_ok e true;;
    ret (s, true)
  else
    curs_set 1;;
    _print_ok e false;;
    col ← cursor_column e fld yielders (memory s);
    PlainWindow.cursor (plain e) fld col;;
    if moved then ret (s, true)
    else
      yl ← at_size yielders (to_size_t fld);
      '(r, h) ← lift (Yielder.proc yl c (memory s));
      let s := mkState e fld h (dispatched s ++ [(fld, c)]) in
      (match r with
       | Yielder.RET_NOP => ret tt
       | _ => _update_field e fld yielders h
       end);;
      ret (s, true).

(** [while ((c = getc())) { ... }]: a key [0] ends the loop, as [break]
    does.  [keys] are the codes [getc()] will return; the keys not read
    are handed back. *)
Fixpoint yield_loop (keys : list Z) (yielders : list Yielder.t) (s : state)
    : M (state * list Z) :=
  match keys with
  | [] => blocked
  | c :: keys' =>
      if bool_decide (c = 0) then ret (s, keys')
      else
        '(s', again) ← loop_body c yielders s;
        if again : bool then yield_loop keys' yielders s'
        else ret (s', keys')
  end.

(** [yield] up to its loop. *)
Definition prologue (e : t) (yielders : list Yielder.t) (h : store) : M unit :=
  keypad (DecoratedWindow._main (base e)) true;;
  noecho;;
  for_ (length (_fields e)) (fun i =>
    _update_field e (to_int (Z.of_nat i)) yielders h);;
  col ← cursor_column e 0 yielders h;
  PlainWindow.cursor (plain e) 0 col;;
  curs_set 1.

(** [bool yield(const std::vector <Yielder> &yielders)] *)
Definition yield (keys : list Z) (e : t) (yielders : list Yielder.t)
    (h : store) : M (bool * state * list Z) :=
  prologue e yielders h;;
  '(s, rest) ← yield_loop keys yielders (mkState e 0 h []);
  curs_set 0;;
  ret (negb (_escape (editor s)), s, rest).

End keys.

End FieldEditor.

(** ** Reading closed runs *)

(** The outcome of a run, without the terminal. *)
Definition value {A} (o : outcome (A * term)) : option A :=
  match o with
  | Done (a, _) => Some a
  | _ => None
  end.

(** [std::isprint] in the C locale. *)
Definition isprint_C (c : Z) : bool := (32 <=? c) && (c <=? 126).

(** ** Objects for closed runs *)

(** The decorated window the constructor builds first on an empty
    terminal, for a 12 x 30 geometry at the origin. *)
Definition sample_decorated (title : string) : DecoratedWindow.t :=
  DecoratedWindow.mk
    (BoxedWindow.mk (PlainWindow.mk (mkScreenInfo 12 30 0 0) 3) 1) 4 title.

(** A selection widget over that window, with the highlight on [line]. *)
Definition sample_selection (multi : bool) (options : list string) (line : Z)
    : SelectionWindow.t :=
  SelectionWindow.mk (sample_decorated "Pick")
    (SelectionWindow.mkOption false multi) options line false.

(** What [pad_option] builds from an option that fits [W] cells. *)
Definition centred (W : Z) (s : string) : string :=
  spaces (Z.to_nat ((W - strlen s) ÷ 2)) +:+ s +:+
  spaces (Z.to_nat (W - strlen s - (W - strlen s) ÷ 2)).

(** ** Reading the drawing calls *)

(** [m] returns normally from [t], leaves the windows as they were, and
    every call it issues satisfies [P]. *)
Definition draws_only {A} (P : call -> Prop) (m : M A) (t : term) : Prop :=
  exists a t' cs,
    m t = Done (a, t') /\ wins t' = wins t /\
    calls t' = calls t ++ cs /\ Forall P cs.

(** The window a call draws on, if it names one. *)
Definition call_window (c : call) : option nat :=
  match c with
  | c_box w | c_wrefresh w | c_werase w | c_wclrtoeol w
  | c_wmove w _ _ | c_mvwprintw w _ _ _ | c_mvwaddch w _ _ _
  | c_wattron w _ | c_wattrset w _ | c_keypad w _ => Some w
  | c_noecho | c_curs_set _ => None
  end.

(** [c] draws on the window [w]. *)
Definition on_window (w : nat) (c : call) : Prop := call_window c = Some w.

(** [c] switches inverse video on. *)
Definition goes_reverse (c : call) : Prop :=
  match c with
  | c_wattron _ A_REVERSE | c_wattrset _ A_REVERSE => True
  | _ => False
  end.

(** A table of two columns and two rows, with the widths the constructor
    derives for it. *)
Definition sample_generator (r : string * string) (i : nat) : string :=
  match i with O => r.1 | _ => r.2 end.

Definition sample_from (widths : list Z) : Table.From (string * string) :=
  Table.mkFrom (string * string) ["Name"; "Age"] [("Al", "30"); ("Bo", "5")]
    sample_generator widths false.

Definition sample_table : Table.t (string * string) :=
  Table.mk (string * string) (PlainWindow.mk (mkScreenInfo 10 40 0 0) 0)
    ["Name"; "Age"] [("Al", "30"); ("Bo", "5")] [4; 3] sample_generator.

(** The focus after a key, as [_check_movement_input] leaves it. *)
Definition focus_after (KEY_UP KEY_DOWN : Z) (e : FieldEditor.t) (c : Z) (fld : Z) : Z :=
  (FieldEditor._check_movement_input KEY_UP KEY_DOWN c fld e).1.2.

(** A field editor over the sample window, with the labels as the
    constructor pads them. *)
Definition sample_editor (quit escape : bool) : FieldEditor.t :=
  FieldEditor.mk (sample_decorated "Form") ["Name   "; "Email  "] quit escape.

(** The length of the longest of the names, 0 for none. *)
Definition longest (l : list string) : Z := foldr Z.max 0 (strlen <$> l).

(** Two string yielders bound to the strings at 0 and at 1. *)
Definition sample_yielders : list Yielder.t :=
  [Yielder.Tyielder_string 263 isprint_C 0; Yielder.Tyielder_string 263 isprint_C 1].

Definition sample_memory : store := {[ 0%nat := "hello"; 1%nat := EmptyString ]}.

(** * Properties *)

(** ** Machine integers *)

Lemma to_int_range (z : Z) : is_int (to_int z).
Proof.
  unfold is_int, to_int, int_min, int_max.
  pose proof (Z.mod_pos_bound (z + 2 ^ 31) (2 ^ 32) ltac:(lia)). lia.
Qed.

Lemma to_int_id (z : Z) : is_int z -> to_int z = z.
Proof.
  unfold is_int, to_int, int_min, int_max. intros Hz.
  rewrite Z.mod_small by lia. lia.
Qed.

Lemma to_int_le (z : Z) : 0 <= z + 2 ^ 31 -> to_int z <= z.
Proof.
  unfold to_int. intros Hz.
  pose proof (Z.mod_le (z + 2 ^ 31) (2 ^ 32) Hz ltac:(lia)). lia.
Qed.

Lemma to_int_neg_large (z : Z) : 0 <= z -> to_int z < 0 -> 2 ^ 31 <= z.
Proof.
  intros Hz Hneg. destruct (Z_lt_le_dec z (2 ^ 31)) as [Hlt|]; [|done].
  rewrite to_int_id in Hneg by (unfold is_int, int_min, int_max; lia). lia.
Qed.

Lemma to_int_mod (z : Z) : to_int (z mod 2 ^ 64) = to_int z.
Proof.
  unfold to_int. f_equal.
  rewrite <- (Z.add_mod_idemp_l (z mod 2 ^ 64)), <- (Z.add_mod_idemp_l z) by lia.
  f_equal. f_equal.
  apply Z.mod_mod_divide. exists (2 ^ 32). reflexivity.
Qed.

Lemma to_int_size_t (z : Z) : to_int (to_size_t z) = to_int z.
Proof. apply to_int_mod. Qed.

Lemma to_int_add_l (a b : Z) : to_int (to_int a + b) = to_int (a + b).
Proof.
  unfold to_int.
  replace ((a + 2 ^ 31) mod 2 ^ 32 - 2 ^ 31 + b + 2 ^ 31)
    with ((a + 2 ^ 31) mod 2 ^ 32 + b) by lia.
  rewrite Z.add_mod_idemp_l by lia. do 2 f_equal. lia.
Qed.

(** ** The monad *)

Lemma bind_done {A B} (m : M A) (k : A -> M B) (t t' : term) (a : A) :
  m t = Done (a, t') -> (m ≫= k) t = k a t'.
Proof. intros H. cbv [mbind M_bind bind]. by rewrite H. Qed.

Lemma draws_ret {A} (a : A) (t : term) : draws (ret a) t.
Proof. by eexists _, _. Qed.

Lemma draws_emit (c : call) (t : term) : draws (emit c) t.
Proof. by eexists _, _. Qed.

Lemma draws_bind {A B} (m : M A) (k : A -> M B) (t : term) :
  draws m t ->
  (forall a t', m t = Done (a, t') -> draws (k a) t') ->
  draws (m ≫= k) t.
Proof.
  intros (a & t' & Hm & Hw) Hk. unfold draws.
  rewrite (bind_done _ _ _ _ _ Hm).
  destruct (Hk a t' Hm) as (b & t'' & Hb & Hw'').
  exists b, t''. split; [done|]. congruence.
Qed.

Lemma draws_at {A} (l : list A) (i : nat) (t : term) :
  (i < length l)%nat -> draws (at_ l i) t.
Proof.
  intros Hi. unfold at_.
  destruct (lookup_lt_is_Some_2 l i Hi) as [a ->]. apply draws_ret.
Qed.

Lemma draws_for_acc {St} (body : nat -> St -> M St) (n i : nat) (s : St) (t : term) :
  (forall k s' t', (i <= k < i + n)%nat -> draws (body k s') t') ->
  draws (for_acc i n body s) t.
Proof.
  revert i s t. induction n as [|n IH]; intros i s t Hbody; cbn.
  - apply draws_ret.
  - apply draws_bind.
    + apply Hbody. lia.
    + intros s' t' _. apply IH. intros k s'' t'' Hk. apply Hbody. lia.
Qed.

Lemma draws_for (body : nat -> M unit) (n : nat) (t : term) :
  (forall k t', (k < n)%nat -> draws (body k) t') ->
  draws (for_ n body) t.
Proof.
  intros Hbody. apply draws_for_acc. intros k [] t' Hk. apply Hbody. lia.
Qed.

Lemma draws_if {A} (b : bool) (m1 m2 : M A) (t : term) :
  draws m1 t -> draws m2 t -> draws (if b then m1 else m2) t.
Proof. by destruct b. Qed.

(** Composite drawing calls always return. *)
Ltac draws_prims :=
  repeat first
    [ apply draws_ret
    | apply draws_emit
    | apply draws_if
    | apply draws_bind; [|intros ? ? _] ].

Lemma draws_mvprintf (p : PlainWindow.t) (y0 x0 : Z) (s : string) (t : term) :
  draws (PlainWindow.mvprintf p y0 x0 s) t.
Proof. unfold PlainWindow.mvprintf, mvwprintw, wrefresh. draws_prims. Qed.

Lemma draws_mvadd_char (p : PlainWindow.t) (y0 x0 : Z) (g : glyph) (t : term) :
  draws (PlainWindow.mvadd_char p y0 x0 g) t.
Proof. unfold PlainWindow.mvadd_char, mvwaddch, wrefresh. draws_prims. Qed.

Lemma draws_refresh (d : DecoratedWindow.t) (t : term) :
  draws (DecoratedWindow.refresh d) t.
Proof.
  unfold DecoratedWindow.refresh, PlainWindow.refresh, wrefresh. draws_prims.
Qed.

(** ** The decorated window *)

(** Running the monad: unfold the plumbing and the drawing primitives. *)
Ltac run_prims :=
  cbv [mbind mret M_bind M_ret bind ret emit newwin wresize box wrefresh werase
       wclrtoeol wmove mvwprintw mvwaddch wattron wattrset keypad noecho
       curs_set throw undefined blocked].

Lemma lookup_snoc_here {A} (l : list A) (a : A) : (l ++ [a]) !! length l = Some a.
Proof. by apply list_lookup_middle. Qed.

(** Reading back a window created a few [newwin] calls ago. *)
Ltac lookup_created :=
  repeat first
    [ rewrite lookup_snoc_here
    | rewrite lookup_app_l by (rewrite ?length_app; simpl; lia) ].

Lemma DecoratedWindow_ctor_run (title : string) (h w y0 x0 : Z) (t : term) :
  exists d t1,
    DecoratedWindow.ctor title h w y0 x0 t = Done (d, t1) /\
    DecoratedWindow.info d = mkScreenInfo h w y0 x0 /\
    geometry t1 (DecoratedWindow._box d) = Some (mkScreenInfo h w y0 x0) /\
    geometry t1 (DecoratedWindow._main d) =
      Some (mkScreenInfo (to_int (h - 5)) (to_int (w - 2))
                         (to_int (y0 + 4)) (to_int (x0 + 1))) /\
    geometry t1 (DecoratedWindow._title d) =
      Some (mkScreenInfo 3 (to_int (w - 2)) (to_int (y0 + 1)) (to_int (x0 + 1))).
Proof.
  eexists _, _. split.
  { cbv [DecoratedWindow.ctor BoxedWindow.ctor PlainWindow.ctor]. run_prims.
    reflexivity. }
  unfold geometry. cbn. repeat split; by lookup_created.
Qed.

(** C1: constructing a decorated window, whatever the title and the state
    of the terminal, places the content surface at size
    (height - 5, width - 2), origin (y + 4, x + 1), and the title surface at
    size (3, width - 2), origin (y + 1, x + 1), in [int] arithmetic; the
    rows given up are [decoration_height = 5]; two constructions from one
    geometry derive the same surfaces; and for a geometry whose derived
    coordinates are [int]s the formulas hold over the integers. *)
Theorem decorated_content_geometry (title title' : string) (h w y0 x0 : Z)
    (t t' : term) :
  exists d t1 d' t1',
    DecoratedWindow.ctor title h w y0 x0 t = Done (d, t1) /\
    DecoratedWindow.ctor title' h w y0 x0 t' = Done (d', t1') /\
    geometry t1 (DecoratedWindow._main d) =
      Some (mkScreenInfo (to_int (h - DecoratedWindow.decoration_height))
                         (to_int (w - 2)) (to_int (y0 + 4)) (to_int (x0 + 1))) /\
    geometry t1 (DecoratedWindow._title d) =
      Some (mkScreenInfo 3 (to_int (w - 2)) (to_int (y0 + 1)) (to_int (x0 + 1))) /\
    DecoratedWindow.decoration_height = 5 /\
    geometry t1' (DecoratedWindow._main d') = geometry t1 (DecoratedWindow._main d) /\
    geometry t1' (DecoratedWindow._title d') = geometry t1 (DecoratedWindow._title d) /\
    (DecoratedWindow.fits h w y0 x0 ->
     geometry t1 (DecoratedWindow._main d) =
       Some (mkScreenInfo (h - 5) (w - 2) (y0 + 4) (x0 + 1)) /\
     geometry t1 (DecoratedWindow._title d) =
       Some (mkScreenInfo 3 (w - 2) (y0 + 1) (x0 + 1))).
Proof.
  destruct (DecoratedWindow_ctor_run title h w y0 x0 t)
    as (d & t1 & Hrun & _ & _ & Hmain & Htitle).
  destruct (DecoratedWindow_ctor_run title' h w y0 x0 t')
    as (d' & t1' & Hrun' & _ & _ & Hmain' & Htitle').
  exists d, t1, d', t1'.
  repeat (split; [first [assumption | congruence | reflexivity]|]).
  intros (Hh & Hw & Hy1 & Hy4 & Hx).
  rewrite Hmain, Htitle, !to_int_id by assumption. done.
Qed.

Lemma decorated_content_geometry_witness :
  exists d t1,
    DecoratedWindow.ctor "Menu" 24 80 0 0 term0 = Done (d, t1) /\
    geometry t1 (DecoratedWindow._main d) = Some (mkScreenInfo 19 78 4 1) /\
    geometry t1 (DecoratedWindow._title d) = Some (mkScreenInfo 3 78 1 1).
Proof.
  destruct (decorated_content_geometry "Menu" "Menu" 24 80 0 0 term0 term0)
    as (d & t1 & _ & _ & Hrun & _ & _ & _ & _ & _ & _ & Hfit).
  exists d, t1. split; [exact Hrun|].
  apply Hfit. unfold DecoratedWindow.fits, is_int, int_min, int_max. lia.
Defined.

(** ** The selection widget *)

(** The two clamps of [_handle_key] never leave the range. *)
Lemma clamp_multi (l n : Z) : 0 <= n -> 0 <= Z.max 0 (Z.min l (to_int n)) <= n.
Proof. intros Hn. pose proof (to_int_le n). lia. Qed.

Lemma clamp_single (l n : Z) :
  0 <= n -> 0 <= Z.max 0 (Z.min l (to_int (to_int n - 1))) <= Z.max 0 (n - 1).
Proof.
  intros Hn. split; [lia|].
  pose proof (to_int_le n) as Hle.
  pose proof (to_int_range n) as [Hlo Hhi].
  pose proof (to_int_range (to_int n - 1)) as [Hlo' Hhi'].
  unfold int_min, int_max in *.
  destruct (Z_lt_le_dec (to_int n - 1 + 2 ^ 31) 0) as [Hneg|Hpos].
  - pose proof (to_int_neg_large n Hn). lia.
  - pose proof (to_int_le (to_int n - 1) Hpos). lia.
Qed.

Lemma clamp_fixed (l n : Z) : 0 <= l <= n -> Z.max 0 (Z.min l n) = l.
Proof. lia. Qed.

Lemma clamp_idem (l n : Z) : Z.max 0 (Z.min (Z.max 0 (Z.min l n)) n) = Z.max 0 (Z.min l n).
Proof. lia. Qed.

Section selection.
Variables KEY_UP KEY_DOWN : Z.

Local Abbreviation _handle_key := (SelectionWindow._handle_key KEY_UP KEY_DOWN).
Local Abbreviation handle_keys := (SelectionWindow.handle_keys KEY_UP KEY_DOWN).
Local Abbreviation yield_loop := (SelectionWindow.yield_loop KEY_UP KEY_DOWN).
Local Abbreviation yield := (SelectionWindow.yield KEY_UP KEY_DOWN).

(** [_handle_key] leaves the options and the mode alone. *)
Lemma handle_key_frame (c : Z) (w : SelectionWindow.t) (sel : gset Z) :
  SelectionWindow._option (_handle_key c w sel).1 = SelectionWindow._option w /\
  SelectionWindow._option_list (_handle_key c w sel).1 = SelectionWindow._option_list w /\
  SelectionWindow.base (_handle_key c w sel).1 = SelectionWindow.base w.
Proof.
  unfold SelectionWindow._handle_key.
  destruct w as [b [cen mul] ol l tm]; cbn.
  repeat case_bool_decide; destruct mul; cbn; repeat case_bool_decide; done.
Qed.

(** Whatever the key and the state before, the highlight is in range
    after [_handle_key]. *)
Lemma handle_key_highlight (c : Z) (w : SelectionWindow.t) (sel : gset Z) :
  SelectionWindow.highlight_ok (_handle_key c w sel).1.
Proof.
  unfold SelectionWindow.highlight_ok.
  destruct (handle_key_frame c w sel) as (-> & -> & _).
  unfold SelectionWindow._handle_key.
  destruct w as [b [cen mul] ol l tm]; cbn.
  assert (0 <= vsize ol) by (unfold vsize; lia).
  repeat case_bool_decide; destruct mul; cbn; repeat case_bool_decide; cbn;
    first [by apply clamp_multi | by apply clamp_single].
Qed.

Lemma handle_keys_snoc (keys : list Z) (c : Z) (w : SelectionWindow.t) (sel : gset Z) :
  handle_keys (keys ++ [c]) w sel =
  _handle_key c (handle_keys keys w sel).1 (handle_keys keys w sel).2.
Proof. unfold SelectionWindow.handle_keys. by rewrite foldl_app. Qed.

Lemma handle_keys_frame (keys : list Z) (w : SelectionWindow.t) (sel : gset Z) :
  SelectionWindow._option (handle_keys keys w sel).1 = SelectionWindow._option w /\
  SelectionWindow._option_list (handle_keys keys w sel).1 = SelectionWindow._option_list w.
Proof.
  induction keys as [|c keys IH] using rev_ind; [done|].
  rewrite handle_keys_snoc.
  destruct (handle_key_frame c (handle_keys keys w sel).1 (handle_keys keys w sel).2)
    as (-> & -> & _).
  exact IH.
Qed.
End selection.

Section selection_loop.
Variables KEY_UP KEY_DOWN : Z.

Local Abbreviation _handle_key := (SelectionWindow._handle_key KEY_UP KEY_DOWN).
Local Abbreviation yield_loop := (SelectionWindow.yield_loop KEY_UP KEY_DOWN).
Local Abbreviation yield := (SelectionWindow.yield KEY_UP KEY_DOWN).

Lemma draws_selection_print_ok (w : SelectionWindow.t) (b : bool) (t : term) :
  draws (SelectionWindow._print_ok w b) t.
Proof.
  unfold SelectionWindow._print_ok, PlainWindow.attribute_set, wattrset.
  draws_prims; apply draws_mvprintf.
Qed.

Lemma draws_print_options (w : SelectionWindow.t) (sel : gset Z) (t : term) :
  draws (SelectionWindow.print_options w sel) t.
Proof.
  unfold SelectionWindow.print_options. apply draws_for. intros k t' Hk.
  unfold PlainWindow.attribute_on, PlainWindow.attribute_set, wattron, wattrset.
  draws_prims; first [by apply draws_at | apply draws_mvprintf].
Qed.

Lemma draws_ok_button (w : SelectionWindow.t) (t : term) :
  draws
    (if SelectionWindow.multi (SelectionWindow._option w)
     then SelectionWindow._print_ok w
            (bool_decide (to_size_t (SelectionWindow._line w)
                          = vsize (SelectionWindow._option_list w)))
     else ret tt) t.
Proof.
  apply draws_if; [apply draws_selection_print_ok | apply draws_ret].
Qed.

(** Escape ends the interaction and leaves the selection alone. *)
Lemma handle_key_escape (w : SelectionWindow.t) (sel : gset Z) :
  SelectionWindow._terminate (_handle_key 27 w sel).1 = true /\
  (_handle_key 27 w sel).2 = sel.
Proof.
  unfold SelectionWindow._handle_key.
  destruct w as [b [cen mul] ol l tm]; cbn.
  repeat case_bool_decide; destruct mul; done.
Qed.


Lemma yield_loop_terminated (keys : list Z) (w : SelectionWindow.t) (sel : gset Z)
    (t : term) :
  SelectionWindow._terminate w = true ->
  yield_loop keys w sel t = Done ((w, sel, keys), t).
Proof. intros Hterm. destruct keys; cbn; by rewrite Hterm. Qed.

(** Enter in multi mode, read off the code: the highlight is clamped,
    then either the OK control ends the interaction or the membership of
    the highlighted index is flipped. *)
Lemma handle_key_enter_multi (w : SelectionWindow.t) (sel : gset Z) :
  KEY_UP ≠ 10 -> KEY_DOWN ≠ 10 ->
  SelectionWindow.multi (SelectionWindow._option w) = true ->
  let n := to_int (vsize (SelectionWindow._option_list w)) in
  let l1 := Z.max 0 (Z.min (SelectionWindow._line w) n) in
  _handle_key 10 w sel =
    if bool_decide (l1 = n)
    then (SelectionWindow.set_terminate (SelectionWindow.set_line w l1) true, sel)
    else if bool_decide (l1 ∈ sel)
         then (SelectionWindow.set_line w l1, sel ∖ {[ l1 ]})
         else (SelectionWindow.set_line w l1, {[ l1 ]} ∪ sel).
Proof.
  intros Hup Hdown Hmulti.
  unfold SelectionWindow._handle_key.
  destruct w as [b [cen mul] ol l tm]; cbn in *. subst mul.
  rewrite (bool_decide_eq_false_2 (10 = KEY_UP)) by congruence.
  rewrite (bool_decide_eq_false_2 (10 = KEY_DOWN)) by congruence.
  cbn. done.
Qed.

End selection_loop.

Section selection_claims.
Variables KEY_UP KEY_DOWN : Z.

Local Abbreviation _handle_key := (SelectionWindow._handle_key KEY_UP KEY_DOWN).
Local Abbreviation handle_keys := (SelectionWindow.handle_keys KEY_UP KEY_DOWN).
Local Abbreviation yield_loop := (SelectionWindow.yield_loop KEY_UP KEY_DOWN).
Local Abbreviation yield := (SelectionWindow.yield KEY_UP KEY_DOWN).

(** C2 (amended): from a highlight in range, and so from the constructed
    widget, every sequence of keys handled by [_handle_key] leaves the
    highlight within [0, N] in multi mode and within [0, max(0, N - 1)]
    otherwise, N being the number of options. *)
Theorem highlight_stays_in_range (keys : list Z) (w : SelectionWindow.t)
    (sel : gset Z) :
  SelectionWindow.highlight_ok w ->
  let N := vsize (SelectionWindow._option_list w) in
  let w' := (handle_keys keys w sel).1 in
  0 <= SelectionWindow._line w' /\
  (SelectionWindow.multi (SelectionWindow._option w) = true ->
   SelectionWindow._line w' <= N) /\
  (SelectionWindow.multi (SelectionWindow._option w) = false ->
   SelectionWindow._line w' <= Z.max 0 (N - 1)) /\
  (SelectionWindow.multi (SelectionWindow._option w) = false -> 1 <= N ->
   SelectionWindow._line w' <= N - 1).
Proof.
  intros Hok N w'.
  assert (SelectionWindow.highlight_ok w') as Hok'.
  { subst w'. destruct keys as [|c keys _] using rev_ind; [done|].
    rewrite handle_keys_snoc. apply handle_key_highlight. }
  unfold SelectionWindow.highlight_ok in Hok'. subst w' N.
  destruct (handle_keys_frame KEY_UP KEY_DOWN keys w sel) as [Hopt Hlist].
  rewrite Hopt, Hlist in Hok'.
  destruct (SelectionWindow.multi (SelectionWindow._option w));
    repeat split; intros; try done; lia.
Qed.


(** C7: in multi mode, with the highlight on an option, two Enters in a
    row hand back the selected set they were given; and, the option count
    being an [int], the first Enter keeps the highlight where it is and
    flips the membership of that index. *)
Theorem enter_twice_restores_selected (w : SelectionWindow.t) (sel : gset Z) :
  KEY_UP ≠ 10 -> KEY_DOWN ≠ 10 ->
  SelectionWindow.multi (SelectionWindow._option w) = true ->
  0 <= SelectionWindow._line w < vsize (SelectionWindow._option_list w) ->
  let r1 := _handle_key 10 w sel in
  let r2 := _handle_key 10 r1.1 r1.2 in
  r2.2 = sel /\
  SelectionWindow._line r2.1 = SelectionWindow._line r1.1 /\
  (vsize (SelectionWindow._option_list w) <= int_max ->
   r1.1 = w /\ r2.1 = w /\
   (SelectionWindow._line w ∈ r1.2 <-> SelectionWindow._line w ∉ sel)).
Proof.
  intros Hup Hdown Hmulti Hline r1 r2. subst r2 r1.
  rewrite (handle_key_enter_multi KEY_UP KEY_DOWN w sel Hup Hdown Hmulti).
  destruct w as [b [cen mul] ol l tm]. cbn in Hmulti, Hline. subst mul.
  cbn [SelectionWindow._option_list SelectionWindow._line
       SelectionWindow.set_line SelectionWindow.set_terminate
       SelectionWindow.base SelectionWindow._option SelectionWindow._terminate].
  set (n := to_int (vsize ol)). set (l1 := Z.max 0 (Z.min l n)).
  repeat case_bool_decide; cbn [fst snd].
  all: rewrite (handle_key_enter_multi KEY_UP KEY_DOWN _ _ Hup Hdown) by done.
  all: cbn [SelectionWindow._option_list SelectionWindow._line
       SelectionWindow.set_line SelectionWindow.set_terminate
       SelectionWindow.base SelectionWindow._option SelectionWindow._terminate].
  all: fold n; replace (Z.max 0 (Z.min l1 n)) with l1 by (subst l1; lia).
  all: assert (vsize ol <= int_max -> n = vsize ol /\ l1 = l) as in_int
    by (intros Hn; assert (n = vsize ol)
          by (apply to_int_id; unfold is_int, int_min, vsize in *; lia);
        subst l1; lia).
  all: clearbody l1 n.
  - (* the clamp put the highlight on the OK control *)
    rewrite bool_decide_eq_true_2 by done. cbn.
    split; [done|]. split; [done|].
    intros Hn. destruct (in_int Hn). lia.
  - (* the index was selected: erased, then inserted again *)
    rewrite bool_decide_eq_false_2 by done.
    rewrite bool_decide_eq_false_2 by set_solver. cbn.
    split.
    { apply set_eq. intros i. destruct (decide (i = l1)); set_solver. }
    split; [done|].
    intros Hn. destruct (in_int Hn) as [_ ->]. set_solver.
  - (* the index was not selected: inserted, then erased again *)
    rewrite bool_decide_eq_false_2 by done.
    rewrite bool_decide_eq_true_2 by set_solver. cbn.
    split; [set_solver|].
    split; [done|].
    intros Hn. destruct (in_int Hn) as [_ ->]. set_solver.
Qed.

(** C9: Escape sets [_terminate] and hands back the selected set as it
    was, every index toggled in before still in it; the loop of [yield]
    given an Escape as next key returns with that same set. *)
Theorem escape_keeps_selected (w : SelectionWindow.t) (sel : gset Z)
    (keys : list Z) (t : term) :
  SelectionWindow._terminate (_handle_key 27 w sel).1 = true /\
  (_handle_key 27 w sel).2 = sel /\
  (forall i, i ∈ sel -> i ∈ (_handle_key 27 w sel).2) /\
  exists w' rest t',
    yield_loop (27 :: keys) w sel t = Done ((w', sel, rest), t') /\
    SelectionWindow._terminate w' = true.
Proof.
  destruct (handle_key_escape KEY_UP KEY_DOWN w sel) as [Hterm Hsel].
  split; [done|]. split; [done|]. split; [by rewrite Hsel|].
  destruct (SelectionWindow._terminate w) eqn:Hw.
  - exists w, (27 :: keys), t. split; [|done]. by apply yield_loop_terminated.
  - cbn [SelectionWindow.yield_loop]. rewrite Hw.
    destruct (draws_print_options w sel t) as ([] & t1 & H1 & _).
    rewrite (bind_done _ _ _ _ _ H1).
    destruct (draws_ok_button w t1) as ([] & t2 & H2 & _).
    rewrite (bind_done _ _ _ _ _ H2).
    destruct (_handle_key 27 w sel) as [w1 s1]. cbn in Hterm, Hsel. subst s1.
    destruct (draws_refresh (SelectionWindow.base w1) t2) as ([] & t3 & H3 & _).
    rewrite (bind_done _ _ _ _ _ H3).
    exists w1, keys, t3. split; [|done]. by apply yield_loop_terminated.
Qed.
End selection_claims.

(** In the closed examples below the keys carry the codes ncurses gives
    them: [KEY_DOWN = 258], [KEY_UP = 259], [KEY_BACKSPACE = 263]. *)

Lemma highlight_stays_in_range_witness :
  exists w t1,
    SelectionWindow.ctor "Pick" (mkScreenInfo 12 30 0 0) ["A"; "B"; "C"]
      (SelectionWindow.mkOption false false) term0 = Done (w, t1) /\
    0 <= SelectionWindow._line
           (SelectionWindow.handle_keys 259 258 [258; 258; 258; 10] w ∅).1 <= 2.
Proof.
  eexists _, _. split; [reflexivity|].
  match goal with
  | |- 0 <= SelectionWindow._line (SelectionWindow.handle_keys _ _ ?ks ?w ?s).1 <= _ =>
      destruct (highlight_stays_in_range 259 258 ks w s) as (H0 & _ & _ & H1)
  end.
  - unfold SelectionWindow.highlight_ok. cbn. lia.
  - split; [exact H0|]. exact (H1 eq_refl ltac:(by vm_compute)).
Defined.

(** C2, as stated, fails on the empty option list: in single mode the
    clamp leaves the highlight at 0, outside the empty range [0, N - 1]. *)
Lemma highlight_range_fails_without_options :
  exists w t1,
    SelectionWindow.ctor "Pick" (mkScreenInfo 12 30 0 0) []
      (SelectionWindow.mkOption false false) term0 = Done (w, t1) /\
    let N := vsize (SelectionWindow._option_list w) in
    let w' := (SelectionWindow.handle_keys 259 258 [258] w ∅).1 in
    SelectionWindow.multi (SelectionWindow._option w) = false /\
    N = 0 /\
    SelectionWindow._line w' = 0 /\
    ~ (0 <= SelectionWindow._line w' <= N - 1).
Proof.
  eexists _, _. split; [reflexivity|].
  cbn. repeat split; try reflexivity. vm_compute. intros [_ H]. by apply H.
Qed.


Lemma enter_twice_restores_selected_witness :
  exists w t1,
    SelectionWindow.ctor "Pick" (mkScreenInfo 12 30 0 0) ["A"; "B"]
      (SelectionWindow.mkOption false true) term0 = Done (w, t1) /\
    let r1 := SelectionWindow._handle_key 259 258 10 w {[ 1 ]} in
    (SelectionWindow._handle_key 259 258 10 r1.1 r1.2).2 = {[ 1 ]}.
Proof.
  eexists _, _. split; [reflexivity|].
  match goal with
  | |- let r1 := SelectionWindow._handle_key _ _ _ ?w ?s in _ =>
      refine (proj1 (enter_twice_restores_selected 259 258 w s _ _ _ _))
  end.
  - lia.
  - lia.
  - reflexivity.
  - by vm_compute.
Defined.

Lemma to_int_idem (z : Z) : to_int (to_int z) = to_int z.
Proof. apply to_int_id, to_int_range. Qed.

Lemma to_int_add_r (a b : Z) : to_int (a + to_int b) = to_int (a + b).
Proof. rewrite Z.add_comm, to_int_add_l. f_equal. lia. Qed.

Lemma to_int_add_size_l (a b : Z) : to_int (to_size_t a + b) = to_int (a + b).
Proof.
  rewrite <- to_int_add_l, to_int_size_t, to_int_add_l. done.
Qed.

Lemma to_int_add_size_r (a b : Z) : to_int (a + to_size_t b) = to_int (a + b).
Proof. rewrite Z.add_comm, to_int_add_size_l. f_equal. lia. Qed.

(** ** Strings *)

Lemma strlen_nonneg (s : string) : 0 <= strlen s.
Proof. unfold strlen. lia. Qed.

Lemma length_app_string (s1 s2 : string) :
  String.length (s1 +:+ s2) = (String.length s1 + String.length s2)%nat.
Proof.
  induction s1 as [|c s1 IH]; [done|].
  change (S (String.length (s1 +:+ s2)) = S (String.length s1 + String.length s2)).
  by rewrite IH.
Qed.

Lemma strlen_app (s1 s2 : string) : strlen (s1 +:+ s2) = strlen s1 + strlen s2.
Proof. unfold strlen. rewrite length_app_string. lia. Qed.

Lemma length_spaces (n : nat) : String.length (spaces n) = n.
Proof. unfold spaces. induction n as [|n IH]; cbn; [done|]. f_equal. exact IH. Qed.

Lemma length_substring_0 (n : nat) (s : string) :
  String.length (String.substring 0 n s) = Nat.min n (String.length s).
Proof.
  revert s. induction n as [|n IH]; intros [|c s]; cbn; try done.
  f_equal. apply IH.
Qed.

(** ** The table *)

Section table.
Variable T : Type.

Local Abbreviation tbl := (Table.t T).

(** A width that a string can hold gives a cell, whatever the string. *)
Lemma cell_returns (s : string) (len : Z) (t : term) :
  len <= string_max_size -> exists c, Table.cell s len t = Done (c, t).
Proof.
  intros Hmax. unfold Table.cell, string_fill, string_append.
  set (str := String.substring 0 (Z.to_nat len) s).
  pose proof (strlen_nonneg str) as Hstr.
  case_bool_decide as Hlt; [|by eexists].
  rewrite (bind_done _ _ t t (spaces (Z.to_nat (len - strlen str)))).
  - rewrite bool_decide_eq_false_2; [by eexists|].
    unfold strlen at 2. rewrite length_spaces. lia.
  - rewrite bool_decide_eq_false_2 by lia. done.
Qed.


Lemma draws_cell (s : string) (len : Z) (t : term) :
  len <= string_max_size -> draws (Table.cell s len) t.
Proof.
  intros Hmax. destruct (cell_returns s len t Hmax) as [c Hc].
  by exists c, t.
Qed.

(** The widths of a table that [int] holds are widths a string holds. *)
Lemma widths_in_int_max (ls : list Z) :
  Table.widths_in_int ls -> Forall (fun l => l <= string_max_size) ls.
Proof.
  unfold Table.widths_in_int, Table.spec_table_width.
  intros [Hpos Hsum].
  assert (Forall (fun l => l <= foldr (fun l acc => (l + 3) + acc) 0 ls) ls) as Hle.
  { clear Hsum. induction Hpos as [|l ls Hl Hpos IH]; [done|]. cbn [foldr].
    assert (0 <= foldr (fun l acc => (l + 3) + acc) 0 ls) as Hnn.
    { clear IH. induction Hpos; cbn [foldr]; lia. }
    constructor; [lia|].
    eapply Forall_impl; [exact IH|]. cbn. intros; lia. }
  eapply Forall_impl; [exact Hle|]. cbn. intros l Hl.
  unfold string_max_size, int_max in *. lia.
Qed.

(** *** [_get_lengths] *)

Lemma widen_insert (g : T -> nat -> string) (i : nat) (ls : list Z) (d : T) :
  Table.widen T g i ls d = <[i := Z.max (ls !!! i) (strlen (g d i))]> ls.
Proof.
  unfold Table.widen. case_bool_decide as Hgt.
  - f_equal. lia.
  - replace (Z.max (ls !!! i) (strlen (g d i))) with (ls !!! i) by lia.
    destruct (decide (i < length ls)%nat) as [Hi|Hi].
    + symmetry. apply list_insert_id. by apply list_lookup_lookup_total_lt.
    + symmetry. apply list_insert_ge. lia.
Qed.

Lemma foldl_widen (g : T -> nat -> string) (i : nat) (d : list T) (ls : list Z) :
  (i < length ls)%nat -> 0 <= ls !!! i ->
  foldl (Table.widen T g i) ls d =
  <[i := Z.max (ls !!! i) (foldr Z.max 0 ((fun r => strlen (g r i)) <$> d))]> ls.
Proof.
  revert ls. induction d as [|r d IH]; intros ls Hi Hpos; cbn.
  - replace (Z.max (ls !!! i) 0) with (ls !!! i) by lia.
    symmetry. apply list_insert_id. by apply list_lookup_lookup_total_lt.
  - pose proof (strlen_nonneg (g r i)).
    rewrite widen_insert, IH;
      rewrite ?length_insert, ?list_lookup_total_insert_eq by done;
      [|done|lia].
    rewrite list_insert_insert_eq. f_equal. lia.
Qed.

Lemma column_length_insert (tb : tbl) (ls : list Z) (i : nat) :
  (i < length ls)%nat ->
  Table.column_length T tb ls i =
  <[i := Table.spec_width T (Table._headers T tb) (Table._data T tb)
           (Table._generator T tb) i]> ls.
Proof.
  intros Hi. unfold Table.column_length, Table.spec_width.
  pose proof (strlen_nonneg (Table._headers T tb !!! i)).
  rewrite foldl_widen;
    rewrite ?length_insert, ?list_lookup_total_insert_eq by done; [|done|lia].
  by rewrite list_insert_insert_eq.
Qed.

Lemma foldl_column_length (tb : tbl) (k a : nat) (ls : list Z) :
  (a + k <= length ls)%nat ->
  let r := foldl (Table.column_length T tb) ls (seq a k) in
  length r = length ls /\
  forall j, r !! j =
    if decide (a <= j < a + k)%nat
    then Some (Table.spec_width T (Table._headers T tb) (Table._data T tb)
                 (Table._generator T tb) j)
    else ls !! j.
Proof.
  revert a ls. induction k as [|k IH]; intros a ls Hlen; cbn.
  - split; [done|]. intros j. case_decide; [lia|done].
  - rewrite column_length_insert by lia.
    destruct (IH (S a) (<[a:=Table.spec_width T (Table._headers T tb)
                (Table._data T tb) (Table._generator T tb) a]> ls))
      as [Hl Hj]; [rewrite length_insert; lia|].
    cbn in Hl, Hj. rewrite length_insert in Hl. split; [done|].
    intros j. rewrite Hj. repeat case_decide; try done; try lia.
    + assert (j = a) as -> by lia. apply list_lookup_insert_eq. lia.
    + apply list_lookup_insert_ne. lia.
Qed.

(** The widths [_get_lengths] derives: one per header, each the width
    the specification names. *)
Lemma get_lengths_spec (tb : tbl) :
  let ls := Table._lengths T (Table._get_lengths T tb) in
  length ls = length (Table._headers T tb) /\
  forall i, (i < length (Table._headers T tb))%nat ->
    ls !! i = Some (Table.spec_width T (Table._headers T tb) (Table._data T tb)
                      (Table._generator T tb) i).
Proof.
  cbn.
  destruct (foldl_column_length tb (length (Table._headers T tb)) 0
              (replicate (length (Table._headers T tb)) 0)) as [Hl Hj].
  { rewrite length_replicate. lia. }
  cbn in Hl, Hj. rewrite length_replicate in Hl. split; [done|].
  intros i Hi. rewrite Hj. case_decide; [done|lia].
Qed.

Lemma spec_width_max (hs : list string) (d : list T) (g : T -> nat -> string)
    (i : nat) :
  Table.real_strings T hs d g -> (i < length hs)%nat ->
  Table.spec_width T hs d g i <= string_max_size.
Proof.
  intros [Hhs Hg] Hi. unfold Table.spec_width.
  assert (strlen (hs !!! i) <= string_max_size) as Hh.
  { rewrite Forall_forall in Hhs. apply Hhs.
    by apply list_elem_of_lookup_total_2. }
  assert (foldr Z.max 0 ((fun r => strlen (g r i)) <$> d) <= string_max_size) as Hd.
  { clear Hh. induction d as [|r d IH]; [cbn; unfold string_max_size; lia|].
    rewrite fmap_cons. cbn [foldr].
    pose proof (Hg r i ltac:(left)) as Hr.
    assert (foldr Z.max 0 ((fun r => strlen (g r i)) <$> d) <= string_max_size)
      by (apply IH; intros r' i' Hr'; apply Hg; by right).
    lia. }
  lia.
Qed.

(** Widths derived from the strings of a table are widths a string holds. *)
Lemma get_lengths_max (tb : tbl) :
  Table.real_strings T (Table._headers T tb) (Table._data T tb) (Table._generator T tb) ->
  Forall (fun l => l <= string_max_size) (Table._lengths T (Table._get_lengths T tb)).
Proof.
  intros Hreal. destruct (get_lengths_spec tb) as [Hlen Hlook].
  apply Forall_lookup. intros i l Hl.
  assert (i < length (Table._headers T tb))%nat as Hi.
  { rewrite <- Hlen. by eapply lookup_lt_Some. }
  rewrite (Hlook i Hi) in Hl. injection Hl as <-.
  by apply spec_width_max.
Qed.

Lemma get_lengths_frame (tb : tbl) :
  Table._headers T (Table._get_lengths T tb) = Table._headers T tb /\
  Table._data T (Table._get_lengths T tb) = Table._data T tb /\
  Table._generator T (Table._get_lengths T tb) = Table._generator T tb /\
  Table.base T (Table._get_lengths T tb) = Table.base T tb.
Proof. done. Qed.

(** *** [_write_table] *)

Lemma resizes_wresize (win : WINDOW) (h w : Z) (t : term) :
  wresize win h w t =
  Done (tt, mkTerm (alter (fun g => mkScreenInfo h w (y g) (x g)) win (wins t))
                   (calls t)).
Proof. done. Qed.

Ltac draws_table :=
  repeat first
    [ apply draws_ret
    | apply draws_emit
    | apply draws_mvprintf
    | apply draws_mvadd_char
    | apply draws_if
    | apply draws_at; lia
    | apply draws_for; intros ? ? ?
    | apply draws_for_acc; intros ? ? ? ?
    | apply draws_bind; [|intros ? ? _] ].

Lemma draws_bar (tb : tbl) (line : Z) (gl gm gr : glyph) (t : term) :
  (length (Table._headers T tb) <= length (Table._lengths T tb))%nat ->
  draws (Table.bar T tb line gl gm gr) t.
Proof. intros Hlen. unfold Table.bar. draws_table. Qed.

Lemma draws_write_headers (tb : tbl) (line : Z) (t : term) :
  (length (Table._headers T tb) <= length (Table._lengths T tb))%nat ->
  draws (Table.write_headers T tb line) t.
Proof. intros Hlen. unfold Table.write_headers. draws_table. Qed.

Lemma at_elem_of {A} (l : list A) (i : nat) (a : A) (t t' : term) :
  at_ l i t = Done (a, t') -> a ∈ l.
Proof.
  unfold at_. destruct (l !! i) as [b|] eqn:Hb; [|discriminate].
  intros [= <- _]. by eapply list_elem_of_lookup_2.
Qed.

Lemma draws_write_row (tb : tbl) (hl : Z) (n : nat) (d : T) (line : Z) (t : term) :
  (length (Table._headers T tb) <= length (Table._lengths T tb))%nat ->
  Forall (fun l => l <= string_max_size) (Table._lengths T tb) ->
  draws (Table.write_row T tb hl n d line) t.
Proof.
  intros Hlen Hmax. unfold Table.write_row, wattrset.
  apply draws_bind; [|intros ? ? _; draws_table].
  apply draws_for_acc. intros i x0 t0 Hi.
  apply draws_bind; [apply draws_at; lia|]. intros l t1 Hl.
  apply draws_bind.
  { apply draws_cell. rewrite Forall_forall in Hmax.
    apply Hmax. by eapply at_elem_of. }
  intros str t2 _. draws_table.
Qed.

(** With a width for every header, none beyond what a string holds, the
    table is drawn to the end. *)
Lemma draws_write_table (tb : tbl) (hl : Z) (t : term) :
  (length (Table._headers T tb) <= length (Table._lengths T tb))%nat ->
  Forall (fun l => l <= string_max_size) (Table._lengths T tb) ->
  draws (Table._write_table T tb hl) t.
Proof.
  intros Hlen Hmax. unfold Table._write_table.
  repeat first
    [ apply draws_bar; exact Hlen
    | apply draws_write_headers; exact Hlen
    | apply draws_write_row; [exact Hlen | exact Hmax]
    | apply draws_ret
    | apply draws_at; lia
    | apply draws_for_acc; intros ? ? ? ?
    | apply draws_bind; [|intros ? ? _] ].
Qed.

(** *** Construction and [set_data] *)

Lemma constructed_frame (from : Table.From T) (h w y0 x0 : Z) (k : nat) :
  Table._headers T (Table.constructed T from h w y0 x0 k) = Table.headers T from /\
  Table._data T (Table.constructed T from h w y0 x0 k) = Table.data T from /\
  Table._generator T (Table.constructed T from h w y0 x0 k) = Table.generator T from /\
  Table.base T (Table.constructed T from h w y0 x0 k)
    = PlainWindow.mk (mkScreenInfo h w y0 x0) k.
Proof. unfold Table.constructed. by case_bool_decide. Qed.

Lemma Table_ctor_run (from : Table.From T) (h w y0 x0 : Z) (t : term) :
  let tb := Table.constructed T from h w y0 x0 (length (wins t)) in
  (length (Table.headers T from) <= length (Table._lengths T tb))%nat ->
  Forall (fun l => l <= string_max_size) (Table._lengths T tb) ->
  exists t1,
    Table.ctor T from h w y0 x0 t = Done (tb, t1) /\
    geometry t1 (PlainWindow._main (Table.base T tb)) =
      Some (if Table.auto_resize T from
            then mkScreenInfo (to_int (to_size_t (vsize (Table.data T from) + 4)))
                              (Table.new_width (Table._lengths T tb)) y0 x0
            else mkScreenInfo h w y0 x0).
Proof.
  intros tb Hlen Hmax.
  destruct (constructed_frame from h w y0 x0 (length (wins t)))
    as (Hh & Hd & Hg & Hb). fold tb in Hh, Hd, Hg, Hb.
  unfold Table.ctor, PlainWindow.ctor.
  rewrite (bind_done _ _ t
             (mkTerm (wins t ++ [mkScreenInfo h w y0 x0]) (calls t))
             (PlainWindow.mk (mkScreenInfo h w y0 x0) (length (wins t))))
    by done.
  change (if bool_decide (Table._lengths T _ = []) then _ else _) with tb.
  set (t0 := mkTerm (wins t ++ [mkScreenInfo h w y0 x0]) (calls t)).
  assert (exists t0',
    (if Table.auto_resize T from
     then PlainWindow.resize (Table.base T tb)
            (to_int (to_size_t (vsize (Table._data T tb) + 4)))
            (Table.new_width (Table._lengths T tb))
     else ret tt) t0 = Done (tt, t0') /\
    geometry t0' (PlainWindow._main (Table.base T tb)) =
      Some (if Table.auto_resize T from
            then mkScreenInfo (to_int (to_size_t (vsize (Table.data T from) + 4)))
                              (Table.new_width (Table._lengths T tb)) y0 x0
            else mkScreenInfo h w y0 x0)) as (t0' & Hrs & Hgeo).
  { rewrite Hb, Hd. unfold geometry. cbn.
    destruct (Table.auto_resize T from); eexists; (split; [reflexivity|]); cbn.
    - rewrite list_lookup_alter_eq, lookup_snoc_here. done.
    - apply lookup_snoc_here. }
  rewrite (bind_done _ _ _ _ _ Hrs). rewrite <- Hh in Hlen.
  destruct (draws_write_table tb (-1) t0' Hlen Hmax) as ([] & t2 & Hwt & Hw2).
  rewrite (bind_done _ _ _ _ _ Hwt).
  eexists. split; [reflexivity|].
  unfold geometry in *. cbn. by rewrite Hw2.
Qed.

Lemma constructed_derived (from : Table.From T) (h w y0 x0 : Z) (k : nat) :
  Table.lengths T from = [] ->
  let tb := Table.constructed T from h w y0 x0 k in
  length (Table._lengths T tb) = length (Table.headers T from) /\
  forall i, (i < length (Table.headers T from))%nat ->
    Table._lengths T tb !! i =
      Some (Table.spec_width T (Table.headers T from) (Table.data T from)
              (Table.generator T from) i).
Proof.
  intros Hnil. unfold Table.constructed. cbn. rewrite Hnil.
  rewrite bool_decide_eq_true_2 by done.
  apply (get_lengths_spec
           (Table.mk T (PlainWindow.mk (mkScreenInfo h w y0 x0) k)
              (Table.headers T from) (Table.data T from) []
              (Table.generator T from))).
Qed.

Lemma constructed_max (from : Table.From T) (h w y0 x0 : Z) (k : nat) :
  Table.lengths T from = [] ->
  Table.real_strings T (Table.headers T from) (Table.data T from)
    (Table.generator T from) ->
  Forall (fun l => l <= string_max_size)
    (Table._lengths T (Table.constructed T from h w y0 x0 k)).
Proof.
  intros Hnil Hreal. unfold Table.constructed. cbn. rewrite Hnil.
  rewrite bool_decide_eq_true_2 by done.
  by apply (get_lengths_max
              (Table.mk T (PlainWindow.mk (mkScreenInfo h w y0 x0) k)
                 (Table.headers T from) (Table.data T from) []
                 (Table.generator T from))).
Qed.

Lemma spec_width_nonneg (hs : list string) (d : list T) (g : T -> nat -> string)
    (i : nat) :
  0 <= Table.spec_width T hs d g i.
Proof.
  unfold Table.spec_width. pose proof (strlen_nonneg (hs !!! i)). lia.
Qed.


(** *** Auto-resize *)

Lemma advance_eq (x0 l : Z) : Table.advance x0 l = to_int (x0 + l + 3).
Proof.
  unfold Table.advance.
  rewrite to_int_size_t, to_int_add_size_l, to_int_add_size_r.
  f_equal. lia.
Qed.

Lemma foldl_advance (ls : list Z) (a : Z) :
  to_int (foldl Table.advance a ls)
  = to_int (a + foldr (fun l acc => (l + 3) + acc) 0 ls).
Proof.
  revert a. induction ls as [|l ls IH]; intros a; cbn.
  - f_equal. lia.
  - rewrite IH, advance_eq, to_int_add_l. f_equal. lia.
Qed.

Lemma is_int_foldl_advance (ls : list Z) (a : Z) :
  is_int a -> is_int (foldl Table.advance a ls).
Proof.
  revert a. induction ls as [|l ls IH]; intros a Ha; cbn; [done|].
  apply IH. rewrite advance_eq. apply to_int_range.
Qed.

(** The width the constructor resizes to is the specification's, as an
    [int]. *)
Lemma new_width_spec (ls : list Z) :
  Table.new_width ls = to_int (Table.spec_table_width ls).
Proof.
  unfold Table.new_width, Table.spec_table_width.
  rewrite <- foldl_advance. symmetry. apply to_int_id.
  apply is_int_foldl_advance. unfold is_int, int_min, int_max. lia.
Qed.

(** The constructor's auto-resize: height rows + 4, width
    1 + sum (width + 3), both as [int]s. *)
Lemma ctor_auto_resize (from : Table.From T) (h w y0 x0 : Z) (t : term) :
  Table.auto_resize T from = true ->
  let tb := Table.constructed T from h w y0 x0 (length (wins t)) in
  (length (Table.headers T from) <= length (Table._lengths T tb))%nat ->
  Forall (fun l => l <= string_max_size) (Table._lengths T tb) ->
  exists t1,
    Table.ctor T from h w y0 x0 t = Done (tb, t1) /\
    geometry t1 (PlainWindow._main (Table.base T tb)) =
      Some (mkScreenInfo (to_int (vsize (Table.data T from) + 4))
              (to_int (Table.spec_table_width (Table._lengths T tb))) y0 x0).
Proof.
  intros Hauto tb Hlen Hmax.
  destruct (Table_ctor_run from h w y0 x0 t Hlen Hmax) as (t1 & Hrun & Hgeo).
  exists t1. split; [exact Hrun|].
  fold tb in Hgeo. rewrite Hgeo, Hauto, new_width_spec, to_int_size_t. done.
Qed.

(** [set_data] with [auto_resize]: the widths are derived again, the
    height becomes rows + 4, and the width becomes 1. *)
Lemma set_data_auto_resize (tb : tbl) (d : list T) (t : term) (g0 : ScreenInfo) :
  geometry t (PlainWindow._main (Table.base T tb)) = Some g0 ->
  Table.real_strings T (Table._headers T tb) d (Table._generator T tb) ->
  let tb' := Table._get_lengths T
               (Table.set_lengths_field T (Table.set_data_field T tb d) []) in
  exists t1,
    Table.set_data T tb d true t = Done (tb', t1) /\
    Table._data T tb' = d /\
    (forall i, (i < length (Table._headers T tb))%nat ->
       Table._lengths T tb' !! i =
         Some (Table.spec_width T (Table._headers T tb) d (Table._generator T tb) i)) /\
    geometry t1 (PlainWindow._main (Table.base T tb)) =
      Some (mkScreenInfo (to_int (vsize d + 4)) 1 (y g0) (x g0)).
Proof.
  intros Hg0 Hreal. unfold Table.set_data.
  pose proof (get_lengths_max
                (Table.set_lengths_field T (Table.set_data_field T tb d) []) Hreal)
    as Hmax.
  set (tb1 := Table._get_lengths T
                (Table.set_lengths_field T (Table.set_data_field T tb d) [])).
  fold tb1 in Hmax.
  destruct (get_lengths_spec
              (Table.set_lengths_field T (Table.set_data_field T tb d) []))
    as [Hlen Hlook]. fold tb1 in Hlen, Hlook. cbn in Hlen, Hlook.
  unfold PlainWindow.erase, werase.
  destruct (draws_emit (c_werase (PlainWindow._main (Table.base T tb))) t)
    as ([] & t0 & H0 & Hw0).
  rewrite (bind_done _ _ _ _ _ H0).
  rewrite (bind_done _ _ t0
             (mkTerm (alter (fun g => mkScreenInfo
                               (to_int (to_size_t (vsize d + 4))) 1 (y g) (x g))
                        (PlainWindow._main (Table.base T tb)) (wins t0))
                     (calls t0)) tb1) by done.
  match goal with
  | |- context [Table._write_table T tb1 (-1) ≫= _] =>
      destruct (draws_write_table tb1 (-1)
                  (mkTerm (alter (fun g => mkScreenInfo
                               (to_int (to_size_t (vsize d + 4))) 1 (y g) (x g))
                        (PlainWindow._main (Table.base T tb)) (wins t0))
                     (calls t0)))
        as ([] & t2 & Hwt & Hw2); [cbn; lia | exact Hmax |]
  end.
  rewrite (bind_done _ _ _ _ _ Hwt).
  eexists. split; [reflexivity|]. split; [done|]. split; [exact Hlook|].
  unfold geometry in *. cbn. rewrite Hw2. cbn.
  rewrite list_lookup_alter_eq, Hw0, Hg0, to_int_size_t. done.
Qed.
End table.


(** ** The field editor *)

Lemma to_size_t_small (z : Z) : 0 <= z <= int_max -> to_size_t z = z.
Proof. unfold to_size_t, int_max. intros Hz. apply Z.mod_small. lia. Qed.

Section field_editor.
Variables KEY_UP KEY_DOWN : Z.

Local Abbreviation _check_movement_input :=
  (FieldEditor._check_movement_input KEY_UP KEY_DOWN).
Local Abbreviation loop_body := (FieldEditor.loop_body KEY_UP KEY_DOWN).
Local Abbreviation yield_loop := (FieldEditor.yield_loop KEY_UP KEY_DOWN).
Local Abbreviation yield := (FieldEditor.yield KEY_UP KEY_DOWN).

Lemma check_escape (fld : Z) (e : FieldEditor.t) :
  KEY_UP ≠ 27 -> KEY_DOWN ≠ 27 ->
  _check_movement_input 27 fld e
  = (true, fld, FieldEditor.set_quit (FieldEditor.set_escape e true) true).
Proof.
  intros Hup Hdown. unfold FieldEditor._check_movement_input.
  rewrite (bool_decide_eq_false_2 (27 = KEY_UP)) by congruence.
  rewrite (bool_decide_eq_false_2 (27 = KEY_DOWN)) by congruence.
  done.
Qed.

Lemma check_enter (fld : Z) (e : FieldEditor.t) :
  KEY_UP ≠ 10 -> KEY_DOWN ≠ 10 ->
  _check_movement_input 10 fld e
  = (true, fld,
     if bool_decide (to_size_t fld = vsize (FieldEditor._fields e))
     then FieldEditor.set_quit e true else e).
Proof.
  intros Hup Hdown. unfold FieldEditor._check_movement_input.
  rewrite (bool_decide_eq_false_2 (10 = KEY_UP)) by congruence.
  rewrite (bool_decide_eq_false_2 (10 = KEY_DOWN)) by congruence.
  done.
Qed.

Lemma draws_field_print_ok (e : FieldEditor.t) (b : bool) (t : term) :
  draws (FieldEditor._print_ok e b) t.
Proof.
  unfold FieldEditor._print_ok, PlainWindow.attribute_set, wattrset.
  draws_prims; apply draws_mvprintf.
Qed.

Lemma draws_cursor_column (e : FieldEditor.t) (fld : Z) (ys : list Yielder.t)
    (h : store) (t : term) (f : string) (yl : Yielder.t) (cnt : string) :
  FieldEditor._fields e !! Z.to_nat (to_size_t fld) = Some f ->
  ys !! Z.to_nat (to_size_t fld) = Some yl ->
  Yielder.content yl h = Some cnt ->
  draws (FieldEditor.cursor_column e fld ys h) t.
Proof.
  intros Hf Hyl Hc. unfold FieldEditor.cursor_column, at_size, at_.
  rewrite Hf, Hyl.
  apply draws_bind; [apply draws_ret|]. intros f' t' _.
  apply draws_bind; [apply draws_ret|]. intros yl' t'' [= <- <-].
  rewrite Hc. cbn. draws_prims.
Qed.

(** Escape, whatever the focus: both flags are set and the loop is left. *)
Lemma loop_body_escape (ys : list Yielder.t) (s : FieldEditor.state) (t : term) :
  KEY_UP ≠ 27 -> KEY_DOWN ≠ 27 ->
  loop_body 27 ys s t =
  Done ((FieldEditor.mkState
           (FieldEditor.set_quit (FieldEditor.set_escape (FieldEditor.editor s) true) true)
           (FieldEditor.field s) (FieldEditor.memory s) (FieldEditor.dispatched s),
         false), t).
Proof.
  intros Hup Hdown. unfold FieldEditor.loop_body.
  by rewrite check_escape.
Qed.

(** Enter on the OK position: [_quit] is set and the loop is left. *)
Lemma loop_body_enter_ok (ys : list Yielder.t) (s : FieldEditor.state) (t : term) :
  KEY_UP ≠ 10 -> KEY_DOWN ≠ 10 ->
  to_size_t (FieldEditor.field s) = vsize (FieldEditor._fields (FieldEditor.editor s)) ->
  loop_body 10 ys s t =
  Done ((FieldEditor.mkState
           (FieldEditor.set_quit (FieldEditor.editor s) true)
           (FieldEditor.field s) (FieldEditor.memory s) (FieldEditor.dispatched s),
         false), t).
Proof.
  intros Hup Hdown Hok. unfold FieldEditor.loop_body.
  rewrite check_enter by done. by rewrite bool_decide_eq_true_2.
Qed.

(** The value [yield] returns is the negation of the escape flag. *)
Lemma yield_returns_not_escape (keys : list Z) (e : FieldEditor.t)
    (ys : list Yielder.t) (h : store) (t : term)
    (b : bool) (s : FieldEditor.state) (rest : list Z) (t' : term) :
  yield keys e ys h t = Done ((b, s, rest), t') ->
  b = negb (FieldEditor._escape (FieldEditor.editor s)).
Proof.
  unfold FieldEditor.yield. cbv [mbind M_bind bind].
  destruct (FieldEditor.prologue e ys h t) as [[[] t1]| | |]; try done.
  destruct (FieldEditor.yield_loop _ _ _ _ _ t1) as [[[s1 r1] t2]| | |]; try done.
  cbn. by intros [= <- <- <- <-].
Qed.

(** [yield] hands back what its loop ends with. *)
Lemma yield_of_loop (keys : list Z) (e : FieldEditor.t) (ys : list Yielder.t)
    (h : store) (t t1 t2 : term) (s : FieldEditor.state) (rest : list Z) :
  FieldEditor.prologue e ys h t = Done (tt, t1) ->
  yield_loop keys ys (FieldEditor.mkState e 0 h []) t1 = Done ((s, rest), t2) ->
  yield keys e ys h t =
  Done ((negb (FieldEditor._escape (FieldEditor.editor s)), s, rest),
        mkTerm (wins t2) (calls t2 ++ [c_curs_set 0])).
Proof.
  intros Hpro Hloop. unfold FieldEditor.yield.
  rewrite (bind_done _ _ _ _ _ Hpro), (bind_done _ _ _ _ _ Hloop). done.
Qed.

(** C8: [yield] returns the negation of the escape flag.  Escape sets the
    escape flag and ends the loop, so that [false] is returned; Enter with
    the focus on OK ends the loop with the escape flag as it was, so that
    [true] is returned unless the flag was set before. *)
Theorem yield_commits_unless_escaped (keys : list Z) (e : FieldEditor.t)
    (ys : list Yielder.t) (h : store) (t : term) :
  KEY_UP ≠ 27 -> KEY_DOWN ≠ 27 -> KEY_UP ≠ 10 -> KEY_DOWN ≠ 10 ->
  (forall b s rest t',
     yield keys e ys h t = Done ((b, s, rest), t') ->
     b = negb (FieldEditor._escape (FieldEditor.editor s))) /\
  (forall t1 t2 s rest,
     FieldEditor.prologue e ys h t = Done (tt, t1) ->
     yield_loop keys ys (FieldEditor.mkState e 0 h []) t1 = Done ((s, rest), t2) ->
     exists t', yield keys e ys h t =
       Done ((negb (FieldEditor._escape (FieldEditor.editor s)), s, rest), t')) /\
  (forall s0 t0, exists s1,
     yield_loop (27 :: keys) ys s0 t0 = Done ((s1, keys), t0) /\
     FieldEditor._escape (FieldEditor.editor s1) = true /\
     FieldEditor._quit (FieldEditor.editor s1) = true /\
     negb (FieldEditor._escape (FieldEditor.editor s1)) = false) /\
  (forall s0 t0,
     to_size_t (FieldEditor.field s0)
       = vsize (FieldEditor._fields (FieldEditor.editor s0)) ->
     exists s1,
       yield_loop (10 :: keys) ys s0 t0 = Done ((s1, keys), t0) /\
       FieldEditor._quit (FieldEditor.editor s1) = true /\
       FieldEditor._escape (FieldEditor.editor s1)
         = FieldEditor._escape (FieldEditor.editor s0) /\
       (FieldEditor._escape (FieldEditor.editor s0) = false ->
        negb (FieldEditor._escape (FieldEditor.editor s1)) = true)).
Proof.
  intros Hup27 Hdown27 Hup10 Hdown10. repeat split.
  - intros b s rest t'. apply yield_returns_not_escape.
  - intros t1 t2 s rest Hpro Hloop. eexists. by eapply yield_of_loop.
  - intros s0 t0. eexists. cbn [FieldEditor.yield_loop].
    rewrite bool_decide_eq_false_2 by done.
    rewrite (bind_done _ _ _ _ _ (loop_body_escape ys s0 t0 Hup27 Hdown27)).
    done.
  - intros s0 t0 Hok. eexists. cbn [FieldEditor.yield_loop].
    rewrite bool_decide_eq_false_2 by done.
    rewrite (bind_done _ _ _ _ _ (loop_body_enter_ok ys s0 t0 Hup10 Hdown10 Hok)).
    split; [done|]. split; [done|]. split; [done|].
    cbn. by intros ->.
Qed.

(** C10: Enter with the focus on a field changes nothing: the movement
    check reports a move and leaves the focus and the object as they were,
    and the loop body ends without a call to [proc], with the same
    object, flags, focus, memory behind the yielders and trace of [proc]
    calls; only drawing calls were issued. *)
Theorem enter_on_field_is_noop (ys : list Yielder.t) (s : FieldEditor.state)
    (t : term) (yl : Yielder.t) (cnt : string) (keys : list Z) :
  KEY_UP ≠ 10 -> KEY_DOWN ≠ 10 ->
  0 <= FieldEditor.field s < vsize (FieldEditor._fields (FieldEditor.editor s)) ->
  is_int (FieldEditor.field s) ->
  ys !! Z.to_nat (FieldEditor.field s) = Some yl ->
  Yielder.content yl (FieldEditor.memory s) = Some cnt ->
  _check_movement_input 10 (FieldEditor.field s) (FieldEditor.editor s)
    = (true, FieldEditor.field s, FieldEditor.editor s) /\
  exists t',
    loop_body 10 ys s t
      = Done ((s, negb (FieldEditor._quit (FieldEditor.editor s))), t') /\
    wins t' = wins t /\
    yield_loop (10 :: keys) ys s t
      = if FieldEditor._quit (FieldEditor.editor s)
        then Done ((s, keys), t')
        else yield_loop keys ys s t'.
Proof.
  cut (KEY_UP ≠ 10 -> KEY_DOWN ≠ 10 ->
       0 <= FieldEditor.field s < vsize (FieldEditor._fields (FieldEditor.editor s)) ->
       is_int (FieldEditor.field s) ->
       ys !! Z.to_nat (FieldEditor.field s) = Some yl ->
       Yielder.content yl (FieldEditor.memory s) = Some cnt ->
       _check_movement_input 10 (FieldEditor.field s) (FieldEditor.editor s)
         = (true, FieldEditor.field s, FieldEditor.editor s) /\
       exists t',
         loop_body 10 ys s t
           = Done ((s, negb (FieldEditor._quit (FieldEditor.editor s))), t') /\
         wins t' = wins t).
  { intros Hcut Hup Hdown Hfld Hint Hyl Hcnt.
    destruct (Hcut Hup Hdown Hfld Hint Hyl Hcnt) as (Hchk & t' & Hbody & Hw).
    split; [exact Hchk|]. exists t'. split; [exact Hbody|]. split; [exact Hw|].
    cbn [FieldEditor.yield_loop]. rewrite bool_decide_eq_false_2 by done.
    rewrite (bind_done _ _ _ _ _ Hbody).
    by destruct (FieldEditor._quit (FieldEditor.editor s)). }
  intros Hup Hdown Hfld Hint Hyl Hcnt.
  destruct s as [e fld mem disp]. cbn in *.
  assert (to_size_t fld = fld) as Hsz
    by (apply to_size_t_small; unfold is_int in Hint; lia).
  assert (_check_movement_input 10 fld e = (true, fld, e)) as Hchk.
  { rewrite check_enter by done. rewrite bool_decide_eq_false_2; [done|].
    rewrite Hsz. lia. }
  split; [exact Hchk|].
  unfold FieldEditor.loop_body. cbn. rewrite Hchk.
  destruct (FieldEditor._quit e) eqn:Hq; [by eexists|].
  rewrite bool_decide_eq_false_2 by (rewrite Hsz; lia).
  destruct (lookup_lt_is_Some_2 (FieldEditor._fields e) (Z.to_nat fld)) as [f Hf].
  { unfold vsize in Hfld. lia. }
  destruct (draws_emit (c_curs_set 1) t) as ([] & t1 & H1 & W1).
  unfold curs_set. rewrite (bind_done _ _ _ _ _ H1).
  destruct (draws_field_print_ok e false t1) as ([] & t2 & H2 & W2).
  rewrite (bind_done _ _ _ _ _ H2).
  destruct (draws_cursor_column e fld ys mem t2 f yl cnt) as (col & t3 & H3 & W3);
    rewrite ?Hsz; try done.
  rewrite (bind_done _ _ _ _ _ H3).
  destruct (draws_emit (c_wmove (PlainWindow._main (FieldEditor.plain e)) fld col) t3)
    as ([] & t4 & H4 & W4).
  unfold PlainWindow.cursor, wmove. rewrite (bind_done _ _ _ _ _ H4).
  exists t4. split; [done|]. congruence.
Qed.
End field_editor.

(** ** Construction *)

Lemma SelectionWindow_ctor_run (title : string) (i : ScreenInfo)
    (opts : list string) (m : bool) (t : term) :
  exists d t1,
    DecoratedWindow.ctor title (height i) (width i) (y i) (x i) t = Done (d, t1) /\
    SelectionWindow.ctor title i opts (SelectionWindow.mkOption false m) t
    = Done (SelectionWindow.mk d (SelectionWindow.mkOption false m) opts 0 false, t1).
Proof.
  destruct (DecoratedWindow_ctor_run title (height i) (width i) (y i) (x i) t)
    as (d & t1 & Hrun & _).
  exists d, t1. split; [exact Hrun|].
  unfold SelectionWindow.ctor, DecoratedWindow.ctor_info.
  rewrite (bind_done _ _ _ _ _ Hrun). done.
Qed.

(** C5 (amended): construction checks nothing and reports nothing.  In
    each of the three misuse configurations the constructor returns
    normally: the decorated window for every geometry, however small; the
    table for widths supplied in another number than the headers, one at
    least for every header, that the [int] arithmetic of the drawing code
    holds; the selection widget without centring for every option list,
    the empty one included, in either mode. *)
Theorem construction_is_unchecked :
  (forall title h w y0 x0 t,
     exists d t1,
       DecoratedWindow.ctor title h w y0 x0 t = Done (d, t1)) /\
  (forall (T : Type) (from : Table.From T) h w y0 x0 t,
     Table.lengths T from ≠ [] ->
     (length (Table.headers T from) <= length (Table.lengths T from))%nat ->
     Table.widths_in_int (Table.lengths T from) ->
     exists tb t1,
       Table.ctor T from h w y0 x0 t = Done (tb, t1)) /\
  (forall title i opts m t,
     exists w t1,
       SelectionWindow.ctor title i opts (SelectionWindow.mkOption false m) t
         = Done (w, t1)).
Proof.
  split; [|split].
  - intros title h w y0 x0 t.
    destruct (DecoratedWindow_ctor_run title h w y0 x0 t) as (d & t1 & Hrun & _).
    by exists d, t1.
  - intros T from h w y0 x0 t Hne Hlen Hint.
    assert (Table._lengths T (Table.constructed T from h w y0 x0 (length (wins t)))
            = Table.lengths T from) as Hkeep.
    { unfold Table.constructed. cbn. by rewrite bool_decide_eq_false_2. }
    destruct (Table_ctor_run T from h w y0 x0 t) as (t1 & Hrun & _).
    { rewrite Hkeep. exact Hlen. }
    { rewrite Hkeep. by apply widths_in_int_max. }
    by eexists _, t1.
  - intros title i opts m t.
    destruct (SelectionWindow_ctor_run title i opts m t) as (d & t1 & _ & Hrun).
    by eexists _, t1.
Qed.

Lemma construction_is_unchecked_witness :
  let from :=
    Table.mkFrom (string * string) ["Name"; "Age"] [("Al", "30")]
      (fun r i => match i with O => r.1 | _ => r.2 end) [4; 3; 9] false in
  exists tb t1,
    Table.ctor (string * string) from 10 40 0 0 term0 = Done (tb, t1).
Proof.
  intros from.
  destruct construction_is_unchecked as (_ & Htable & _).
  apply (Htable (string * string)%type from 10 40 0 0 term0).
  - discriminate.
  - cbn. lia.
  - split; [repeat constructor; lia | by vm_compute].
Defined.

(** C5, as stated, fails: none of the three misuses is reported.  A
    decorated window of 2 rows, fewer than the 5 its decoration takes, is
    built; a table with two headers takes three widths; a multi-select
    widget takes the empty option list. *)
Lemma construction_misuse_is_not_reported :
  (2 < DecoratedWindow.decoration_height /\
   (exists d t1, DecoratedWindow.ctor "Menu" 2 2 0 0 term0 = Done (d, t1)) /\
   ~ reports_error (DecoratedWindow.ctor "Menu" 2 2 0 0 term0)) /\
  (let from :=
     Table.mkFrom (string * string) ["Name"; "Age"] [("Al", "30")]
       (fun r i => match i with O => r.1 | _ => r.2 end) [4; 3; 9] false in
   exists tb t1,
     Table.ctor (string * string) from 10 40 0 0 term0 = Done (tb, t1) /\
     length (Table._lengths (string * string) tb)
       ≠ length (Table._headers (string * string) tb) /\
     ~ reports_error (Table.ctor (string * string) from 10 40 0 0 term0)) /\
  (exists w t1,
     SelectionWindow.ctor "Pick" (mkScreenInfo 12 30 0 0) []
       (SelectionWindow.mkOption false true) term0 = Done (w, t1) /\
     SelectionWindow._option_list w = [] /\
     ~ reports_error
         (SelectionWindow.ctor "Pick" (mkScreenInfo 12 30 0 0) []
            (SelectionWindow.mkOption false true) term0)).
Proof.
  split; [|split].
  - destruct (DecoratedWindow_ctor_run "Menu" 2 2 0 0 term0)
      as (d & t1 & Hrun & _).
    split; [by vm_compute|]. split; [by exists d, t1|].
    intros [e He]. rewrite Hrun in He. discriminate He.
  - intros from.
    destruct (Table_ctor_run (string * string) from 10 40 0 0 term0)
      as (t1 & Hrun & _);
      [cbn; lia | repeat constructor; by vm_compute |].
    eexists _, t1. split; [exact Hrun|]. split; [cbn; lia|].
    intros [e He]. rewrite Hrun in He. discriminate He.
  - destruct (SelectionWindow_ctor_run "Pick" (mkScreenInfo 12 30 0 0) [] true term0)
      as (d & t1 & _ & Hrun).
    eexists _, t1. split; [exact Hrun|]. split; [reflexivity|].
    intros [e He]. rewrite Hrun in He. discriminate He.
Qed.

(** ** Auto-resize through [set_data] *)

(** C4 on a table of two columns and two rows: the constructor resizes
    the surface to 6 x 14, that is rows + 4 by 1 + (4 + 3) + (3 + 3);
    [set_data] with [auto_resize], given the same rows, resizes it to
    6 x 1. *)
Theorem set_data_auto_resize_width :
  let rows := [("Al", "30"); ("Bo", "5")] in
  let from :=
    Table.mkFrom (string * string) ["Name"; "Age"] rows
      (fun r i => match i with O => r.1 | _ => r.2 end) [] true in
  exists tb t1 tb' t2,
    Table.ctor (string * string) from 10 40 0 0 term0 = Done (tb, t1) /\
    geometry t1 (PlainWindow._main (Table.base _ tb)) = Some (mkScreenInfo 6 14 0 0) /\
    Table.set_data (string * string) tb rows true t1 = Done (tb', t2) /\
    Table._lengths _ tb' = [4; 3] /\
    Table.spec_table_width (Table._lengths _ tb') = 14 /\
    geometry t2 (PlainWindow._main (Table.base _ tb')) = Some (mkScreenInfo 6 1 0 0).
Proof.
  intros rows from.
  destruct (ctor_auto_resize (string * string) from 10 40 0 0 term0 eq_refl)
    as (t1 & Hctor & Hgeo);
    [vm_compute; lia | repeat constructor; by vm_compute |].
  destruct (set_data_auto_resize (string * string) _ rows t1 _ Hgeo)
    as (t2 & Hset & _ & _ & Hgeo').
  { split.
    - repeat constructor; by vm_compute.
    - intros r i Hr. subst rows.
      repeat (apply elem_of_cons in Hr as [->|Hr]);
        [| |by apply elem_of_nil in Hr];
        destruct i; by vm_compute. }
  eexists _, t1, _, t2.
  split; [exact Hctor|]. split; [exact Hgeo|]. split; [exact Hset|].
  split; [reflexivity|]. split; [reflexivity|]. exact Hgeo'.
Qed.

(** ** Closed runs *)

Lemma yield_commits_unless_escaped_witness :
  let e := FieldEditor.mk
             (DecoratedWindow.mk
                (BoxedWindow.mk (PlainWindow.mk (mkScreenInfo 12 40 0 0) 3) 1) 4 "Form")
             ["Name  "] false false in
  exists s1,
    FieldEditor.yield_loop 259 258 [27] [Yielder.base_yielder]
      (FieldEditor.mkState e 0 ∅ []) term0 = Done ((s1, []), term0) /\
    FieldEditor._escape (FieldEditor.editor s1) = true.
Proof.
  intros e.
  destruct (yield_commits_unless_escaped 259 258 [] e [Yielder.base_yielder] ∅ term0)
    as (_ & _ & Hesc & _); [lia | lia | lia | lia |].
  destruct (Hesc (FieldEditor.mkState e 0 ∅ []) term0) as (s1 & Hrun & He & _).
  exists s1. split; [exact Hrun | exact He].
Defined.

Lemma enter_on_field_is_noop_witness :
  let e := FieldEditor.mk
             (DecoratedWindow.mk
                (BoxedWindow.mk (PlainWindow.mk (mkScreenInfo 12 40 0 0) 3) 1) 4 "Form")
             ["Name  "] false false in
  let s := FieldEditor.mkState e 0 ∅ [] in
  exists t',
    FieldEditor.loop_body 259 258 10 [Yielder.base_yielder] s term0
      = Done ((s, true), t') /\
    wins t' = wins term0.
Proof.
  intros e s.
  destruct (enter_on_field_is_noop 259 258 [Yielder.base_yielder] s term0
              Yielder.base_yielder EmptyString [])
    as (_ & t' & Hbody & Hw & _).
  - lia.
  - lia.
  - by vm_compute.
  - unfold is_int, int_min, int_max. cbn. lia.
  - reflexivity.
  - reflexivity.
  - exists t'. split; [exact Hbody | exact Hw].
Defined.

(** Single selection among A, B, C: Down, Down, Enter selects index 2. *)
Example selection_single_run :
  (fun r => (r.1.1.1, bool_decide (r.1.2 = {[ 2 ]}))) <$>
    value ((w ← SelectionWindow.ctor "Pick" (mkScreenInfo 12 30 0 0) ["A"; "B"; "C"]
                  (SelectionWindow.mkOption false false);
            SelectionWindow.yield 259 258 [258; 258; 10] w ∅) term0)
  = Some (true, true).
Proof. by vm_compute. Qed.

(** Multi selection among A, B: Enter, Down, Enter, Down, Enter selects
    both and ends on the OK control. *)
Example selection_multi_run :
  (fun r => (r.1.1.1, bool_decide (r.1.2 = {[ 0; 1 ]}),
             SelectionWindow._line r.1.1.2)) <$>
    value ((w ← SelectionWindow.ctor "Pick" (mkScreenInfo 12 30 0 0) ["A"; "B"]
                  (SelectionWindow.mkOption false true);
            SelectionWindow.yield 259 258 [10; 258; 10; 258; 10] w ∅) term0)
  = Some (true, true, 2).
Proof. by vm_compute. Qed.

(** Escape after one toggle: the toggle stays, [yield] returns [true]. *)
Example selection_escape_run :
  (fun r => (r.1.1.1, bool_decide (r.1.2 = {[ 0 ]}))) <$>
    value ((w ← SelectionWindow.ctor "Pick" (mkScreenInfo 12 30 0 0) ["A"; "B"]
                  (SelectionWindow.mkOption false true);
            SelectionWindow.yield 259 258 [10; 27] w ∅) term0)
  = Some (true, true).
Proof. by vm_compute. Qed.

(** Backspace on an empty string changes nothing. *)
Example backspace_on_empty :
  Yielder.proc (Yielder.Tyielder_string 263 isprint_C 0) 263 {[ 0%nat := EmptyString ]}
  = Some (Yielder.RET_NOP, {[ 0%nat := EmptyString ]}).
Proof. reflexivity. Qed.

(** Two fields; "a", Enter (ignored on a field), Down, "b", Down, Enter on
    OK: committed, with one character in each string and two calls to
    [proc]. *)
Example field_editor_commit_run :
  (fun r => (r.1.1, FieldEditor.memory r.1.2 !! 0%nat,
             FieldEditor.memory r.1.2 !! 1%nat,
             FieldEditor.dispatched r.1.2)) <$>
    value ((e ← FieldEditor.ctor "Form" ["Name"; "Email"] (mkScreenInfo 12 40 0 0);
            FieldEditor.yield 259 258 [97; 10; 258; 98; 258; 10] e
              [Yielder.Tyielder_string 263 isprint_C 0;
               Yielder.Tyielder_string 263 isprint_C 1]
              {[ 0%nat := EmptyString; 1%nat := EmptyString ]}) term0)
  = Some (true, Some "a", Some "b", [(0, 97); (1, 98)]).
Proof. by vm_compute. Qed.

(** Escape: not committed. *)
Example field_editor_escape_run :
  (fun r => r.1.1) <$>
    value ((e ← FieldEditor.ctor "Form" ["Name"; "Email"] (mkScreenInfo 12 40 0 0);
            FieldEditor.yield 259 258 [97; 27] e
              [Yielder.Tyielder_string 263 isprint_C 0;
               Yielder.Tyielder_string 263 isprint_C 1]
              {[ 0%nat := EmptyString; 1%nat := EmptyString ]}) term0)
  = Some false.
Proof. by vm_compute. Qed.

(** A label wider than the window: [substr] throws in the first
    [_update_field]. *)
Example field_editor_narrow_run :
  (e ← FieldEditor.ctor "Form" ["Name"; "Email"] (mkScreenInfo 12 8 0 0);
   FieldEditor.yield 259 258 [27] e
     [Yielder.Tyielder_string 263 isprint_C 0;
      Yielder.Tyielder_string 263 isprint_C 1]
     {[ 0%nat := EmptyString; 1%nat := EmptyString ]}) term0
  = Throw out_of_range.
Proof. by vm_compute. Qed.

(** * Further properties *)

(** ** The boxed window *)

Lemma BoxedWindow_ctor_run (h w y0 x0 : Z) (t : term) :
  exists b t1,
    BoxedWindow.ctor h w y0 x0 t = Done (b, t1) /\
    BoxedWindow.info b = mkScreenInfo h w y0 x0 /\
    BoxedWindow._box b = S (length (wins t)) /\
    BoxedWindow._main b = S (S (length (wins t))) /\
    wins t1 = wins t ++ [mkScreenInfo h w y0 x0; mkScreenInfo h w y0 x0;
                         mkScreenInfo (to_int (h - 2)) (to_int (w - 2))
                                      (to_int (y0 + 1)) (to_int (x0 + 1))].
Proof.
  eexists _, _. split.
  { cbv [BoxedWindow.ctor PlainWindow.ctor]. run_prims. reflexivity. }
  cbn. rewrite !length_app. cbn. rewrite <- !app_assoc. cbn.
  repeat split; lia.
Qed.

(** X1: a boxed window keeps its border surface at the full geometry and
    insets its content surface by one cell on every side, in [int]
    arithmetic and, when the inset values are [int]s, over the integers;
    the windows that existed before are as they were. *)
Theorem boxed_content_geometry (h w y0 x0 : Z) (t : term) :
  exists b t1,
    BoxedWindow.ctor h w y0 x0 t = Done (b, t1) /\
    geometry t1 (BoxedWindow._box b) = Some (mkScreenInfo h w y0 x0) /\
    geometry t1 (BoxedWindow._main b) =
      Some (mkScreenInfo (to_int (h - 2)) (to_int (w - 2))
                         (to_int (y0 + 1)) (to_int (x0 + 1))) /\
    (forall k, (k < length (wins t))%nat -> geometry t1 k = geometry t k) /\
    (is_int (h - 2) -> is_int (w - 2) -> is_int (y0 + 1) -> is_int (x0 + 1) ->
     geometry t1 (BoxedWindow._main b) =
       Some (mkScreenInfo (h - 2) (w - 2) (y0 + 1) (x0 + 1))).
Proof.
  destruct (BoxedWindow_ctor_run h w y0 x0 t)
    as (b & t1 & Hrun & _ & Hbox & Hmain & Hwins).
  exists b, t1. split; [exact Hrun|].
  unfold geometry. rewrite Hbox, Hmain, Hwins.
  assert (forall (l : list ScreenInfo) a b c,
            (l ++ [a; b; c]) !! S (length l) = Some b /\
            (l ++ [a; b; c]) !! S (S (length l)) = Some c) as Hlk.
  { intros l a b' c. split.
    - rewrite lookup_app_r by lia. by replace (S (length l) - length l)%nat with 1%nat by lia.
    - rewrite lookup_app_r by lia.
      by replace (S (S (length l)) - length l)%nat with 2%nat by lia. }
  destruct (Hlk (wins t) (mkScreenInfo h w y0 x0) (mkScreenInfo h w y0 x0)
              (mkScreenInfo (to_int (h - 2)) (to_int (w - 2))
                            (to_int (y0 + 1)) (to_int (x0 + 1)))) as [-> ->].
  split; [done|]. split; [done|]. split.
  - intros k Hk. by apply lookup_app_l.
  - intros Hh Hw Hy Hx. by rewrite !to_int_id.
Qed.

Lemma boxed_content_geometry_witness :
  exists b t1,
    BoxedWindow.ctor 24 80 2 3 term0 = Done (b, t1) /\
    geometry t1 (BoxedWindow._main b) = Some (mkScreenInfo 22 78 3 4).
Proof.
  destruct (boxed_content_geometry 24 80 2 3 term0)
    as (b & t1 & Hrun & _ & _ & _ & Hexact).
  exists b, t1. split; [exact Hrun|].
  apply Hexact; unfold is_int, int_min, int_max; lia.
Defined.

(** ** What the decorated constructor allocates and draws *)

Lemma DecoratedWindow_ctor_trace (title : string) (h w y0 x0 : Z) (t : term) :
  let k := length (wins t) in
  let g := mkScreenInfo h w y0 x0 in
  DecoratedWindow.ctor title h w y0 x0 t =
  Done (DecoratedWindow.mk
          (BoxedWindow.mk (PlainWindow.mk g (S (S (S k)))) (S k))
          (S (S (S (S k)))) title,
        mkTerm
          (wins t ++
             [g; g;
              mkScreenInfo (to_int (h - 2)) (to_int (w - 2))
                           (to_int (y0 + 1)) (to_int (x0 + 1));
              mkScreenInfo (to_int (h - 5)) (to_int (w - 2))
                           (to_int (y0 + 4)) (to_int (x0 + 1));
              mkScreenInfo 3 (to_int (w - 2)) (to_int (y0 + 1)) (to_int (x0 + 1))])
          (calls t ++
             [c_box (S k); c_wrefresh (S k); c_box (S (S (S (S k))));
              c_mvwprintw (S (S (S (S k)))) 1
                (to_int (to_int (w - 2) - strlen title) ÷ 2) title;
              c_wrefresh (S (S (S (S k))))])).
Proof.
  intros k g.
  cbv [DecoratedWindow.ctor BoxedWindow.ctor PlainWindow.ctor]. run_prims.
  cbn. rewrite !length_app. cbn. rewrite <- !app_assoc. cbn.
  replace (length (wins t) + 1 + 1 + 1 + 1)%nat with (S (S (S (S k)))) by (subst k; lia).
  replace (length (wins t) + 1 + 1 + 1)%nat with (S (S (S k))) by (subst k; lia).
  replace (length (wins t) + 1)%nat with (S k) by (subst k; lia).
  done.
Qed.

(** X2: the constructor chain of a decorated window allocates five
    surfaces and keeps the handles of three (border, content, title); the
    content surfaces made by the plain and the boxed base constructors stay
    allocated with no handle left to them.  Earlier windows are untouched. *)
Theorem decorated_ctor_allocates_five (title : string) (h w y0 x0 : Z) (t : term) :
  exists d t1,
    DecoratedWindow.ctor title h w y0 x0 t = Done (d, t1) /\
    length (wins t1) = (length (wins t) + 5)%nat /\
    DecoratedWindow._box d = (length (wins t) + 1)%nat /\
    DecoratedWindow._main d = (length (wins t) + 3)%nat /\
    DecoratedWindow._title d = (length (wins t) + 4)%nat /\
    geometry t1 (length (wins t)) = Some (mkScreenInfo h w y0 x0) /\
    geometry t1 (length (wins t) + 2)%nat =
      Some (mkScreenInfo (to_int (h - 2)) (to_int (w - 2))
                         (to_int (y0 + 1)) (to_int (x0 + 1))) /\
    (forall k, (k < length (wins t))%nat -> geometry t1 k = geometry t k).
Proof.
  eexists _, _. split; [apply DecoratedWindow_ctor_trace|].
  unfold geometry. cbn. rewrite length_app. cbn.
  repeat split; try lia.
  - by apply list_lookup_middle.
  - rewrite lookup_app_r by lia.
    by replace (length (wins t) + 2 - length (wins t))%nat with 2%nat by lia.
  - intros k Hk. by apply lookup_app_l.
Qed.

(** X3: the constructor draws the two borders and the title, and nothing
    else.  A title that fits the title surface (length at most width - 2)
    is written on row 1 inside it, with a left margin that is the right
    margin or one cell less. *)
Theorem decorated_title_is_centred (title : string) (h w y0 x0 : Z) (t : term) :
  is_int (w - 2) -> strlen title <= w - 2 ->
  exists d t1 col,
    DecoratedWindow.ctor title h w y0 x0 t = Done (d, t1) /\
    calls t1 = calls t ++
      [c_box (DecoratedWindow._box d); c_wrefresh (DecoratedWindow._box d);
       c_box (DecoratedWindow._title d);
       c_mvwprintw (DecoratedWindow._title d) 1 col title;
       c_wrefresh (DecoratedWindow._title d)] /\
    0 <= col /\ col + strlen title <= w - 2 /\
    0 <= (w - 2 - strlen title - col) - col <= 1.
Proof.
  intros Hw Hfit. pose proof (strlen_nonneg title) as Hlen.
  eexists _, _, _. split; [apply DecoratedWindow_ctor_trace|].
  split; [reflexivity|].
  rewrite (to_int_id (w - 2)) by done.
  rewrite to_int_id by (unfold is_int, int_min, int_max in *; lia).
  pose proof (Z.quot_rem' (w - 2 - strlen title) 2) as Hqr.
  pose proof (Z.rem_bound_pos (w - 2 - strlen title) 2 ltac:(lia) ltac:(lia)).
  assert (0 <= (w - 2 - strlen title) ÷ 2) by (apply Z.quot_pos; lia).
  lia.
Qed.

Lemma decorated_title_is_centred_witness :
  exists d t1 col,
    DecoratedWindow.ctor "Menu" 24 81 0 0 term0 = Done (d, t1) /\
    c_mvwprintw (DecoratedWindow._title d) 1 col "Menu" ∈ calls t1 /\
    0 <= col /\ col + 4 <= 79.
Proof.
  destruct (decorated_title_is_centred "Menu" 24 81 0 0 term0)
    as (d & t1 & col & Hrun & Hcalls & H0 & H1 & _).
  - unfold is_int, int_min, int_max. lia.
  - by vm_compute.
  - exists d, t1, col. split; [exact Hrun|]. split; [|split; [exact H0 | exact H1]].
    rewrite Hcalls. set_solver.
Defined.

(** ** More on the selection widget *)

Lemma emit_run (c : call) (t : term) :
  emit c t = Done (tt, mkTerm (wins t) (calls t ++ [c])).
Proof. reflexivity. Qed.

Lemma set_line_same (w : SelectionWindow.t) :
  SelectionWindow.set_line w (SelectionWindow._line w) = w.
Proof. by destruct w. Qed.

(** The stop below which the highlight moves: the OK control in multi mode,
    the last option otherwise. *)
Lemma clamp_in_range (w : SelectionWindow.t) (l : Z) :
  vsize (SelectionWindow._option_list w) < int_max ->
  let N := vsize (SelectionWindow._option_list w) in
  let top := if SelectionWindow.multi (SelectionWindow._option w)
             then N else Z.max 0 (N - 1) in
  let bound := if SelectionWindow.multi (SelectionWindow._option w)
               then to_int N else to_int (to_int N - 1) in
  Z.max 0 (Z.min l bound) = Z.max 0 (Z.min l top).
Proof.
  intros HN N top bound. subst top bound.
  assert (0 <= N) by (subst N; unfold vsize; lia).
  assert (to_int N = N) as ->
    by (apply to_int_id; unfold is_int, int_min, int_max in *; lia).
  destruct (SelectionWindow.multi (SelectionWindow._option w)); [done|].
  rewrite to_int_id by (unfold is_int, int_min, int_max in *; lia). lia.
Qed.

Section selection_extras.
Variables KEY_UP KEY_DOWN : Z.

Local Abbreviation _handle_key := (SelectionWindow._handle_key KEY_UP KEY_DOWN).
Local Abbreviation handle_keys := (SelectionWindow.handle_keys KEY_UP KEY_DOWN).
Local Abbreviation yield_loop := (SelectionWindow.yield_loop KEY_UP KEY_DOWN).
Local Abbreviation yield := (SelectionWindow.yield KEY_UP KEY_DOWN).

(** X4: a key that is none of Up, Down, Enter and Escape changes nothing:
    with the highlight in range the widget and the selected set come back
    as they were. *)
Theorem other_key_changes_nothing (c : Z) (w : SelectionWindow.t) (sel : gset Z) :
  c ≠ KEY_UP -> c ≠ KEY_DOWN -> c ≠ 10 -> c ≠ 27 ->
  SelectionWindow.highlight_ok w ->
  vsize (SelectionWindow._option_list w) < int_max ->
  _handle_key c w sel = (w, sel).
Proof.
  intros Hup Hdown Henter Hesc Hok HN.
  pose proof (clamp_in_range w (SelectionWindow._line w) HN) as Hclamp.
  unfold SelectionWindow.highlight_ok in Hok. clear HN.
  unfold SelectionWindow._handle_key.
  rewrite !bool_decide_eq_false_2 by done.
  destruct w as [b [cen mul] ol l tm]; cbn in *.
  destruct mul; cbn; rewrite Hclamp; unfold SelectionWindow.set_line; cbn;
    do 2 f_equal; lia.
Qed.

(** X5: Down moves the highlight one stop further and Up one stop back,
    staying at the last stop and at index 0: there is no wrap-around, and
    neither key touches the selected set or ends the interaction. *)
Theorem arrows_move_without_wrapping (w : SelectionWindow.t) (sel : gset Z) :
  KEY_UP ≠ KEY_DOWN -> KEY_UP ≠ 10 -> KEY_UP ≠ 27 -> KEY_DOWN ≠ 10 -> KEY_DOWN ≠ 27 ->
  SelectionWindow.highlight_ok w ->
  vsize (SelectionWindow._option_list w) < int_max ->
  let l := SelectionWindow._line w in
  let N := vsize (SelectionWindow._option_list w) in
  let top := if SelectionWindow.multi (SelectionWindow._option w)
             then N else Z.max 0 (N - 1) in
  _handle_key KEY_DOWN w sel = (SelectionWindow.set_line w (Z.min (l + 1) top), sel) /\
  _handle_key KEY_UP w sel = (SelectionWindow.set_line w (Z.max 0 (l - 1)), sel).
Proof.
  intros Hne Hu10 Hu27 Hd10 Hd27 Hok HN l N top.
  pose proof (clamp_in_range w (l + 1) HN) as Hdown.
  pose proof (clamp_in_range w (l - 1) HN) as Hup.
  unfold SelectionWindow.highlight_ok in Hok.
  assert (0 <= N) by (subst N; unfold vsize; lia).
  assert (to_int (l + 1) = l + 1 /\ to_int (l - 1) = l - 1) as [Hi1 Hi2].
  { split; apply to_int_id; unfold is_int, int_min, int_max in *; subst l N;
      destruct (SelectionWindow.multi (SelectionWindow._option w)); lia. }
  clear HN.
  unfold SelectionWindow._handle_key.
  rewrite (bool_decide_eq_true_2 (KEY_DOWN = KEY_DOWN)) by done.
  rewrite (bool_decide_eq_true_2 (KEY_UP = KEY_UP)) by done.
  rewrite (bool_decide_eq_false_2 (KEY_DOWN = KEY_UP)) by congruence.
  rewrite (bool_decide_eq_false_2 (KEY_UP = KEY_DOWN)) by congruence.
  rewrite (bool_decide_eq_false_2 (KEY_DOWN = 10)) by done.
  rewrite (bool_decide_eq_false_2 (KEY_DOWN = 27)) by done.
  rewrite (bool_decide_eq_false_2 (KEY_UP = 10)) by done.
  rewrite (bool_decide_eq_false_2 (KEY_UP = 27)) by done.
  subst l N top.
  destruct w as [b [cen mul] ol l tm]; cbn in *.
  rewrite Hi1, Hi2.
  destruct mul; cbn; rewrite ?Hdown, ?Hup; unfold SelectionWindow.set_line; cbn;
    split; do 2 f_equal; lia.
Qed.

(** The selected set after one key: the set before, with at most the
    clamped highlight put in or taken out. *)
Lemma handle_key_selected (c : Z) (w : SelectionWindow.t) (sel : gset Z) (i : Z) :
  i ∈ (_handle_key c w sel).2 ->
  i ∈ sel \/
  (i = SelectionWindow._line (_handle_key c w sel).1 /\
   (SelectionWindow.multi (SelectionWindow._option w) = true ->
    i ≠ to_int (vsize (SelectionWindow._option_list w)))).
Proof.
  unfold SelectionWindow._handle_key.
  destruct w as [b [cen mul] ol l tm]; cbn.
  repeat case_bool_decide; destruct mul; cbn; repeat case_bool_decide; cbn;
    intros Hi; set_solver.
Qed.

(** The clamp leaves an [int]. *)
Lemma handle_key_line_int (c : Z) (w : SelectionWindow.t) (sel : gset Z) :
  SelectionWindow._line (_handle_key c w sel).1 <= int_max.
Proof.
  unfold SelectionWindow._handle_key.
  destruct w as [b [cen mul] ol l tm]; cbn.
  pose proof (to_int_range (vsize ol)) as [_ H1].
  pose proof (to_int_range (to_int (vsize ol) - 1)) as [_ H2].
  assert (0 <= int_max) by (unfold int_max; lia).
  repeat case_bool_decide; destruct mul; cbn; repeat case_bool_decide; cbn; lia.
Qed.

(** X6: the selected set only ever gains indices of options: in multi
    mode, and in single mode with at least one option, every index that a
    sequence of keys adds lies in [0, N). *)
Theorem selected_gains_only_options (keys : list Z) (w : SelectionWindow.t)
    (sel : gset Z) (i : Z) :
  SelectionWindow.multi (SelectionWindow._option w) = true \/
    1 <= vsize (SelectionWindow._option_list w) ->
  i ∈ (handle_keys keys w sel).2 ->
  i ∈ sel \/ 0 <= i < vsize (SelectionWindow._option_list w).
Proof.
  intros Hmode. induction keys as [|c keys IH] using rev_ind; [by left|].
  rewrite handle_keys_snoc. intros Hi.
  destruct (handle_keys_frame KEY_UP KEY_DOWN keys w sel) as [Hopt Hlist].
  apply handle_key_selected in Hi as [Hi|[-> Hnot]]; [by apply IH|]. right.
  pose proof (handle_key_highlight KEY_UP KEY_DOWN c
                (handle_keys keys w sel).1 (handle_keys keys w sel).2) as Hok.
  unfold SelectionWindow.highlight_ok in Hok.
  destruct (handle_key_frame KEY_UP KEY_DOWN c
              (handle_keys keys w sel).1 (handle_keys keys w sel).2)
    as (Hopt' & Hlist' & _).
  rewrite Hopt', Hlist', Hopt, Hlist in Hok. rewrite Hopt, Hlist in Hnot.
  pose proof (handle_key_line_int c
                (handle_keys keys w sel).1 (handle_keys keys w sel).2) as Hint.
  set (l' := SelectionWindow._line
               (_handle_key c (handle_keys keys w sel).1 (handle_keys keys w sel).2).1)
    in *.
  set (N := vsize (SelectionWindow._option_list w)) in *.
  assert (0 <= N) by (subst N; unfold vsize; lia).
  destruct (SelectionWindow.multi (SelectionWindow._option w)) eqn:Hm.
  - specialize (Hnot eq_refl).
    destruct (decide (N <= int_max)) as [Hsmall|Hbig]; [|lia].
    rewrite to_int_id in Hnot by (unfold is_int, int_min, int_max in *; lia). lia.
  - destruct Hmode as [?|Hone]; [done|]. lia.
Qed.

(** X7: in single mode Enter puts the highlighted index into the selected
    set and ends the interaction: [yield] returns [true] with that index
    selected, and leaves the keys after the Enter unread. *)
Theorem single_enter_selects (keys : list Z) (w : SelectionWindow.t)
    (sel : gset Z) (t : term) :
  KEY_UP ≠ 10 -> KEY_DOWN ≠ 10 ->
  SelectionWindow.multi (SelectionWindow._option w) = false ->
  SelectionWindow._terminate w = false ->
  SelectionWindow.highlight_ok w ->
  vsize (SelectionWindow._option_list w) < int_max ->
  exists t',
    yield (10 :: keys) w sel t =
    Done ((true, SelectionWindow.set_terminate w true,
           {[ SelectionWindow._line w ]} ∪ sel, keys), t').
Proof.
  intros Hup Hdown Hmulti Hterm Hok HN.
  pose proof (clamp_in_range w (SelectionWindow._line w) HN) as Hclamp.
  unfold SelectionWindow.highlight_ok in Hok. clear HN.
  assert (_handle_key 10 w sel
          = (SelectionWindow.set_terminate w true,
             {[ SelectionWindow._line w ]} ∪ sel)) as Hkey.
  { unfold SelectionWindow._handle_key.
    rewrite (bool_decide_eq_false_2 (10 = KEY_UP)) by congruence.
    rewrite (bool_decide_eq_false_2 (10 = KEY_DOWN)) by congruence.
    destruct w as [b [cen mul] ol l tm]; cbn in *. subst mul. cbn.
    rewrite Hclamp. replace (Z.max 0 (Z.min l (Z.max 0 (vsize ol - 1)))) with l by lia.
    done. }
  assert (forall t0, exists t',
            yield_loop (10 :: keys) w sel t0 =
            Done ((SelectionWindow.set_terminate w true,
                   {[ SelectionWindow._line w ]} ∪ sel, keys), t')) as Hloop.
  { intros t0. cbn [SelectionWindow.yield_loop]. rewrite Hterm.
    destruct (draws_print_options w sel t0) as ([] & t1 & H1 & _).
    rewrite (bind_done _ _ _ _ _ H1).
    destruct (draws_ok_button w t1) as ([] & t2 & H2 & _).
    rewrite (bind_done _ _ _ _ _ H2). rewrite Hkey.
    destruct (draws_refresh
                (SelectionWindow.base (SelectionWindow.set_terminate w true)) t2)
      as ([] & t3 & H3 & _).
    rewrite (bind_done _ _ _ _ _ H3).
    exists t3. by apply yield_loop_terminated. }
  unfold SelectionWindow.yield, noecho, curs_set, keypad.
  rewrite !(bind_done _ _ _ _ _ (emit_run _ _)).
  match goal with
  | |- context [mbind _ _ ?t0] => destruct (Hloop t0) as (t' & Hrun)
  end.
  rewrite (bind_done _ _ _ _ _ Hrun).
  exists t'. cbn. rewrite bool_decide_eq_true_2; [done|].
  assert (size ({[SelectionWindow._line w]} ∪ sel) ≠ 0%nat); [|lia].
  rewrite size_non_empty_iff. set_solver.
Qed.

(** X8: [_terminate] is never reset: on a widget that has terminated,
    [yield] reads no key and returns at once whether the given set is
    non-empty, leaving widget and set as they are. *)
Theorem yield_after_termination (keys : list Z) (w : SelectionWindow.t)
    (sel : gset Z) (t : term) :
  SelectionWindow._terminate w = true ->
  yield keys w sel t =
  Done ((bool_decide (sel ≠ ∅), w, sel, keys),
        mkTerm (wins t)
               (calls t ++ [c_noecho; c_curs_set 0;
                            c_keypad (DecoratedWindow._main (SelectionWindow.base w)) true])).
Proof.
  intros Hterm.
  unfold SelectionWindow.yield, noecho, curs_set, keypad.
  rewrite !(bind_done _ _ _ _ _ (emit_run _ _)).
  rewrite (bind_done _ _ _ _ _
             (yield_loop_terminated KEY_UP KEY_DOWN keys w sel _ Hterm)).
  cbn. rewrite <- !app_assoc. cbn.
  replace (bool_decide (Z.of_nat (size sel) > 0)) with (bool_decide (sel ≠ ∅)); [done|].
  apply bool_decide_ext.
  assert (size sel ≠ 0%nat <-> sel ≠ ∅) as <-; [|lia].
  rewrite size_non_empty_iff. split; intros Hne Heq; apply Hne.
  - by rewrite Heq.
  - by apply leibniz_equiv.
Qed.
End selection_extras.

Lemma other_key_changes_nothing_witness :
  SelectionWindow._handle_key 259 258 120 (sample_selection true ["A"; "B"; "C"] 3) {[ 1 ]}
  = (sample_selection true ["A"; "B"; "C"] 3, {[ 1 ]}).
Proof.
  apply other_key_changes_nothing; try lia.
  - by vm_compute.
  - by vm_compute.
Defined.

Lemma arrows_move_without_wrapping_witness :
  SelectionWindow._handle_key 259 258 258 (sample_selection false ["A"; "B"; "C"] 2) ∅
  = (sample_selection false ["A"; "B"; "C"] 2, ∅).
Proof.
  refine (proj1 (arrows_move_without_wrapping 259 258
                   (sample_selection false ["A"; "B"; "C"] 2) ∅ _ _ _ _ _ _ _));
    try lia; by vm_compute.
Defined.

Lemma selected_gains_only_options_witness :
  2 ∉ (SelectionWindow.handle_keys 259 258 [10; 258; 10; 258; 10]
         (sample_selection true ["A"; "B"] 0) ∅).2.
Proof.
  intros Hi.
  pose proof (selected_gains_only_options 259 258 [10; 258; 10; 258; 10]
                (sample_selection true ["A"; "B"] 0) ∅ 2 (or_introl eq_refl) Hi)
    as Hgain.
  clear Hi. destruct Hgain as [Hin|Hrange].
  - revert Hin. apply not_elem_of_empty.
  - revert Hrange. unfold vsize. cbn. lia.
Defined.

Lemma single_enter_selects_witness :
  exists t',
    SelectionWindow.yield 259 258 [10; 258] (sample_selection false ["A"; "B"; "C"] 1)
      ∅ term0
    = Done ((true, SelectionWindow.set_terminate
                     (sample_selection false ["A"; "B"; "C"] 1) true,
             {[ 1 ]} ∪ ∅, [258]), t').
Proof.
  apply single_enter_selects; try lia; try reflexivity; by vm_compute.
Defined.

Lemma yield_after_termination_witness :
  value (SelectionWindow.yield 259 258 [258; 10]
           (SelectionWindow.set_terminate (sample_selection false ["A"; "B"] 0) true)
           {[ 0 ]} term0)
  = Some (bool_decide (({[ 0 ]} : gset Z) ≠ ∅),
          SelectionWindow.set_terminate (sample_selection false ["A"; "B"] 0) true,
          {[ 0 ]}, [258; 10]).
Proof.
  rewrite yield_after_termination; reflexivity.
Defined.

(** ** Centred options *)

Lemma strlen_spaces (n : nat) : strlen (spaces n) = Z.of_nat n.
Proof. unfold strlen. by rewrite length_spaces. Qed.

(** A centred option fills the width, with the left margin equal to the
    right one or one cell less. *)
Lemma centred_shape (W : Z) (s : string) :
  strlen s <= W ->
  let L := (W - strlen s) ÷ 2 in
  let R := W - strlen s - L in
  0 <= L /\ 0 <= R - L <= 1 /\ strlen (centred W s) = W.
Proof.
  intros Hfit L R.
  pose proof (Z.quot_rem' (W - strlen s) 2) as Hqr.
  pose proof (Z.rem_bound_pos (W - strlen s) 2 ltac:(lia) ltac:(lia)).
  assert (0 <= L) by (apply Z.quot_pos; lia).
  split; [done|]. split; [lia|].
  unfold centred. fold L. fold R. rewrite !strlen_app, !strlen_spaces. lia.
Qed.

Lemma pad_option_fits (W : Z) (s : string) (t : term) :
  0 <= W <= int_max -> strlen s <= W ->
  SelectionWindow.pad_option W s t = Done (centred W s, t).
Proof.
  intros HW Hfit. pose proof (strlen_nonneg s) as Hlen.
  destruct (centred_shape W s Hfit) as (HL & HR & _).
  unfold SelectionWindow.pad_option, spaces_int.
  rewrite (to_int_id (strlen s)) by (unfold is_int, int_min, int_max in *; lia).
  rewrite (to_int_id (W - strlen s)) by (unfold is_int, int_min, int_max in *; lia).
  rewrite to_int_id by (unfold is_int, int_min, int_max in *; lia).
  rewrite !bool_decide_eq_false_2 by lia. done.
Qed.

Lemma pad_option_too_long (W : Z) (s : string) (t : term) :
  0 <= W <= int_max -> W < strlen s <= int_max ->
  SelectionWindow.pad_option W s t = Throw length_error.
Proof.
  intros HW Hlong.
  unfold SelectionWindow.pad_option, spaces_int.
  rewrite (to_int_id (strlen s)) by (unfold is_int, int_min, int_max in *; lia).
  rewrite (to_int_id (W - strlen s)) by (unfold is_int, int_min, int_max in *; lia).
  pose proof (Z.quot_rem' (W - strlen s) 2) as Hqr.
  assert (W - strlen s <= 0) as Hneg by lia.
  pose proof (Z.rem_bound_pos_neg (W - strlen s) 2 ltac:(lia) Hneg).
  rewrite (to_int_id (W - strlen s - (W - strlen s) ÷ 2))
    by (unfold is_int, int_min, int_max in *; lia).
  destruct (decide ((W - strlen s) ÷ 2 < 0)) as [HL|HL].
  - rewrite (bool_decide_eq_true_2 _ HL). reflexivity.
  - rewrite (bool_decide_eq_false_2 _ HL).
    rewrite bool_decide_eq_true_2 by lia. reflexivity.
Qed.

Lemma pad_options_fit (W : Z) (l : list string) (t : term) :
  0 <= W <= int_max -> Forall (fun s => strlen s <= W) l ->
  SelectionWindow.pad_options W l t = Done (centred W <$> l, t).
Proof.
  intros HW Hall. induction Hall as [|s l Hs Hl IH]; [done|].
  cbn [SelectionWindow.pad_options].
  rewrite (bind_done _ _ _ _ _ (pad_option_fits W s t HW Hs)).
  rewrite (bind_done _ _ _ _ _ IH). done.
Qed.

Lemma pad_options_too_long (W : Z) (l : list string) (t : term) :
  0 <= W <= int_max -> Forall (fun s => strlen s <= int_max) l ->
  Exists (fun s => W < strlen s) l ->
  SelectionWindow.pad_options W l t = Throw length_error.
Proof.
  intros HW Hall Hex. induction l as [|s l IH]; [by apply Exists_nil in Hex|].
  apply Forall_cons in Hall as [Hs Hl].
  cbn [SelectionWindow.pad_options].
  destruct (decide (W < strlen s)) as [Hlong|Hfit].
  - cbv [mbind M_bind bind]. by rewrite pad_option_too_long.
  - rewrite (bind_done _ _ _ _ _ (pad_option_fits W s t HW ltac:(lia))).
    apply Exists_cons in Hex as [?|Hex]; [lia|].
    cbv [mbind M_bind bind]. by rewrite IH.
Qed.

(** X9: with [centered], construction pads every option that fits into
    width - 4 cells to exactly that width, the option in the middle: the
    left margin is the right margin or one cell less. *)
Theorem centred_options_fill_width (title : string) (i : ScreenInfo)
    (opts : list string) (m : bool) (t : term) :
  4 <= width i <= int_max ->
  Forall (fun s => strlen s <= width i - 4) opts ->
  exists w t1,
    SelectionWindow.ctor title i opts (SelectionWindow.mkOption true m) t
      = Done (w, t1) /\
    SelectionWindow._option_list w = centred (width i - 4) <$> opts /\
    Forall (fun s => strlen s = width i - 4) (SelectionWindow._option_list w) /\
    Forall (fun s => let L := (width i - 4 - strlen s) ÷ 2 in
                     0 <= L /\ 0 <= (width i - 4 - strlen s - L) - L <= 1) opts.
Proof.
  intros HW Hall.
  destruct (DecoratedWindow_ctor_run title (height i) (width i) (y i) (x i) t)
    as (d & t1 & Hrun & _).
  unfold SelectionWindow.ctor, DecoratedWindow.ctor_info.
  rewrite (bind_done _ _ _ _ _ Hrun). cbn [SelectionWindow.centered].
  rewrite (to_int_id (width i - 4)) by (unfold is_int, int_min, int_max in *; lia).
  rewrite (bind_done _ _ _ _ _
             (pad_options_fit (width i - 4) opts t1 ltac:(unfold int_max in *; lia) Hall)).
  eexists _, _. split; [reflexivity|]. cbn. split; [done|]. split.
  - apply Forall_fmap. eapply Forall_impl; [exact Hall|].
    intros s Hs. by apply centred_shape.
  - eapply Forall_impl; [exact Hall|]. intros s Hs.
    destruct (centred_shape (width i - 4) s Hs) as (HL & HR & _). done.
Qed.

(** X10: with [centered], an option longer than width - 4 makes the
    constructor leave by [std::length_error]: the negative padding count
    reaches [insert] or [append] as a huge [size_t]. *)
Theorem centred_option_too_long_throws (title : string) (i : ScreenInfo)
    (opts : list string) (m : bool) (t : term) :
  4 <= width i <= int_max ->
  Forall (fun s => strlen s <= int_max) opts ->
  Exists (fun s => width i - 4 < strlen s) opts ->
  SelectionWindow.ctor title i opts (SelectionWindow.mkOption true m) t
    = Throw length_error.
Proof.
  intros HW Hall Hex.
  destruct (DecoratedWindow_ctor_run title (height i) (width i) (y i) (x i) t)
    as (d & t1 & Hrun & _).
  unfold SelectionWindow.ctor, DecoratedWindow.ctor_info.
  rewrite (bind_done _ _ _ _ _ Hrun). cbn [SelectionWindow.centered].
  rewrite (to_int_id (width i - 4)) by (unfold is_int, int_min, int_max in *; lia).
  cbv [mbind M_bind bind].
  by rewrite pad_options_too_long by (unfold int_max in *; first [lia | done]).
Qed.

Lemma centred_options_fill_width_witness :
  exists w t1,
    SelectionWindow.ctor "Pick" (mkScreenInfo 12 12 0 0) ["ab"; "abcde"]
      (SelectionWindow.mkOption true false) term0 = Done (w, t1) /\
    SelectionWindow._option_list w = ["   ab   "; " abcde  "].
Proof.
  destruct (centred_options_fill_width "Pick" (mkScreenInfo 12 12 0 0)
              ["ab"; "abcde"] false term0) as (w & t1 & Hrun & Hlist & _).
  - by vm_compute.
  - repeat constructor; by vm_compute.
  - exists w, t1. split; [exact Hrun | exact Hlist].
Defined.

Lemma centred_option_too_long_throws_witness :
  SelectionWindow.ctor "Pick" (mkScreenInfo 12 8 0 0) ["ab"; "abcde"]
    (SelectionWindow.mkOption true false) term0 = Throw length_error.
Proof.
  apply centred_option_too_long_throws.
  - by vm_compute.
  - repeat constructor; by vm_compute.
  - apply Exists_cons_tl, Exists_cons_hd. by vm_compute.
Defined.

(** ** Drawing calls *)

Lemma draws_only_ret {A} (P : call -> Prop) (a : A) (t : term) :
  draws_only P (ret a) t.
Proof. exists a, t, []. by rewrite app_nil_r. Qed.

Lemma draws_only_emit (P : call -> Prop) (c : call) (t : term) :
  P c -> draws_only P (emit c) t.
Proof. intros Hc. eexists tt, _, [c]. repeat split. by constructor. Qed.

Lemma draws_only_bind {A B} (P : call -> Prop) (m : M A) (k : A -> M B) (t : term) :
  draws_only P m t ->
  (forall a t', draws_only P (k a) t') ->
  draws_only P (m ≫= k) t.
Proof.
  intros (a & t' & cs & Hm & Hw & Hc & HP) Hk.
  destruct (Hk a t') as (b & t'' & cs' & Hb & Hw' & Hc' & HP').
  exists b, t'', (cs ++ cs'). rewrite (bind_done _ _ _ _ _ Hm).
  split; [done|]. split; [congruence|]. split.
  - by rewrite Hc', Hc, app_assoc.
  - by apply Forall_app.
Qed.

Lemma draws_only_bind_run {A B} (P : call -> Prop) (m : M A) (k : A -> M B)
    (t : term) :
  draws_only P m t ->
  (forall a t', m t = Done (a, t') -> draws_only P (k a) t') ->
  draws_only P (m ≫= k) t.
Proof.
  intros (a & t' & cs & Hm & Hw & Hc & HP) Hk.
  destruct (Hk a t' Hm) as (b & t'' & cs' & Hb & Hw' & Hc' & HP').
  exists b, t'', (cs ++ cs'). rewrite (bind_done _ _ _ _ _ Hm).
  split; [done|]. split; [congruence|]. split.
  - by rewrite Hc', Hc, app_assoc.
  - by apply Forall_app.
Qed.

Lemma draws_only_if {A} (P : call -> Prop) (b : bool) (m1 m2 : M A) (t : term) :
  draws_only P m1 t -> draws_only P m2 t -> draws_only P (if b then m1 else m2) t.
Proof. by destruct b. Qed.

Lemma draws_only_at {A} (P : call -> Prop) (l : list A) (i : nat) (t : term) :
  (i < length l)%nat -> draws_only P (at_ l i) t.
Proof.
  intros Hi. unfold at_.
  destruct (lookup_lt_is_Some_2 l i Hi) as [a ->]. apply draws_only_ret.
Qed.

Lemma draws_only_for_acc {St} (P : call -> Prop) (body : nat -> St -> M St)
    (n i : nat) (s : St) (t : term) :
  (forall k s' t', (i <= k < i + n)%nat -> draws_only P (body k s') t') ->
  draws_only P (for_acc i n body s) t.
Proof.
  revert i s t. induction n as [|n IH]; intros i s t Hbody; cbn.
  - apply draws_only_ret.
  - apply draws_only_bind.
    + apply Hbody. lia.
    + intros s' t'. apply IH. intros k s'' t'' Hk. apply Hbody. lia.
Qed.

Lemma draws_only_for (P : call -> Prop) (body : nat -> M unit) (n : nat) (t : term) :
  (forall k t', (k < n)%nat -> draws_only P (body k) t') ->
  draws_only P (for_ n body) t.
Proof.
  intros Hbody. apply draws_only_for_acc. intros k [] t' Hk. apply Hbody. lia.
Qed.

Lemma draws_only_draws {A} (P : call -> Prop) (m : M A) (t : term) :
  draws_only P m t -> draws m t.
Proof. intros (a & t' & cs & Hm & Hw & _). by exists a, t'. Qed.

(** Breaking a drawing function down to its calls; [tac] settles [P] on
    each call. *)
Ltac draws_only_steps tac :=
  repeat first
    [ apply draws_only_ret
    | apply draws_only_emit; tac
    | apply draws_only_if
    | apply draws_only_at; lia
    | apply draws_only_for; intros ? ? ?
    | apply draws_only_for_acc; intros ? ? ? ?
    | apply draws_only_bind; [|intros ? ?] ].

(** ** More on the table *)

Lemma substring_0_prefix (n : nat) (s : string) :
  exists rest, s = String.substring 0 n s +:+ rest.
Proof.
  revert s. induction n as [|n IH]; intros [|c s]; cbn.
  - by exists EmptyString.
  - by exists (String c s).
  - by exists EmptyString.
  - destruct (IH s) as [rest Hrest]. exists rest.
    change (String c s = String c (String.substring 0 n s +:+ rest)).
    by rewrite <- Hrest.
Qed.

Lemma append_empty_r (s : string) : s +:+ EmptyString = s.
Proof.
  induction s as [|c s IH]; [done|].
  change (String c (s +:+ EmptyString) = String c s). by rewrite IH.
Qed.

Lemma substring_0_all (n : nat) (s : string) :
  (String.length s <= n)%nat -> String.substring 0 n s = s.
Proof.
  revert s. induction n as [|n IH]; intros [|c s] Hn; cbn in *; try done; try lia.
  f_equal. apply IH. lia.
Qed.

Lemma for_acc_undefined {St} (body : nat -> St -> M St) (n i j : nat) (s : St) (t : term) :
  (i <= j < i + n)%nat ->
  (forall k s' t', (i <= k < j)%nat -> draws (body k s') t') ->
  (forall s' t', body j s' t' = Undefined) ->
  for_acc i n body s t = Undefined.
Proof.
  revert i s t. induction n as [|n IH]; intros i s t Hj Hbefore Hat; [lia|].
  cbn [for_acc]. destruct (decide (i = j)) as [->|Hne].
  - cbv [mbind M_bind bind]. by rewrite Hat.
  - destruct (Hbefore i s t) as (s' & t' & Hrun & _); [lia|].
    rewrite (bind_done _ _ _ _ _ Hrun).
    apply IH; [lia| |done]. intros k s'' t'' Hk. apply Hbefore. lia.
Qed.

Section table_extras.
Variable T : Type.

Local Abbreviation tbl := (Table.t T).

Lemma cell_fits (s : string) (len : Z) (t : term) :
  0 <= len -> strlen s <= len -> len <= string_max_size ->
  Table.cell s len t = Done (s +:+ spaces (Z.to_nat (len - strlen s)), t).
Proof.
  intros Hlen Hfit Hmax. unfold Table.cell, string_fill, string_append.
  rewrite substring_0_all by (unfold strlen in Hfit; lia).
  pose proof (strlen_nonneg s) as Hs.
  case_bool_decide as Hlt.
  - rewrite (bind_done _ _ t t (spaces (Z.to_nat (len - strlen s)))).
    + rewrite bool_decide_eq_false_2; [done|].
      unfold strlen at 2. rewrite length_spaces. lia.
    + rewrite bool_decide_eq_false_2 by lia. done.
  - replace (len - strlen s) with 0 by lia.
    change (spaces (Z.to_nat 0)) with EmptyString. by rewrite append_empty_r.
Qed.

Lemma cell_truncates (s : string) (len : Z) (t : term) :
  0 <= len -> len <= strlen s ->
  Table.cell s len t = Done (String.substring 0 (Z.to_nat len) s, t).
Proof.
  intros Hlen Hlong. unfold Table.cell.
  assert (strlen (String.substring 0 (Z.to_nat len) s) = Z.min len (strlen s)) as Hsub.
  { unfold strlen. rewrite length_substring_0. lia. }
  by rewrite bool_decide_eq_false_2 by lia.
Qed.

Lemma cell_too_wide (s : string) (len : Z) (t : term) :
  string_max_size < len - strlen s ->
  Table.cell s len t = Throw length_error.
Proof.
  intros Hwide. unfold Table.cell, string_fill.
  pose proof (strlen_nonneg s) as Hs.
  assert (0 < string_max_size) as Hpos by (unfold string_max_size; lia).
  rewrite substring_0_all by (unfold strlen in *; lia).
  rewrite bool_decide_eq_true_2 by lia.
  cbv [mbind M_bind bind]. by rewrite bool_decide_eq_true_2.
Qed.

(** X11: building a cell.  A string that fits the width, the width being
    an [int], is followed by spaces up to the width; a string at least as
    long as the width is cut to its first width characters, a prefix of
    it, and then nothing is allocated; a width that exceeds the string by
    more than [max_size()] builds no cell: the padding leaves by
    [std::length_error]. *)
Theorem cell_pads_or_truncates (s : string) (len : Z) (t : term) :
  0 <= len ->
  (strlen s <= len -> len <= int_max ->
   Table.cell s len t = Done (s +:+ spaces (Z.to_nat (len - strlen s)), t)) /\
  (len <= strlen s ->
   Table.cell s len t = Done (String.substring 0 (Z.to_nat len) s, t) /\
   exists rest, s = String.substring 0 (Z.to_nat len) s +:+ rest) /\
  (string_max_size < len - strlen s ->
   Table.cell s len t = Throw length_error).
Proof.
  intros Hlen. split; [|split].
  - intros Hfit Hint. apply cell_fits; [done | done |].
    unfold int_max, string_max_size in *. lia.
  - intros Hlong. split; [by apply cell_truncates | apply substring_0_prefix].
  - apply cell_too_wide.
Qed.

(** X12: with the widths the constructor derives, no cell is truncated:
    every cell of every row is built, and is the whole generated string
    followed by spaces.  The strings are those of a C++ program: none is
    longer than [max_size()]. *)
Theorem derived_widths_never_truncate (from : Table.From T) (h w y0 x0 : Z) (t : term) :
  Table.lengths T from = [] ->
  Table.real_strings T (Table.headers T from) (Table.data T from)
    (Table.generator T from) ->
  let tb := Table.constructed T from h w y0 x0 (length (wins t)) in
  exists t1,
    Table.ctor T from h w y0 x0 t = Done (tb, t1) /\
    forall i wd d t',
      Table._lengths T tb !! i = Some wd ->
      d ∈ Table.data T from ->
      Table.cell (Table.generator T from d i) wd t' =
      Done (Table.generator T from d i +:+
              spaces (Z.to_nat (wd - strlen (Table.generator T from d i))), t').
Proof.
  intros Hnil Hreal.
  destruct (constructed_derived T from h w y0 x0 (length (wins t)) Hnil)
    as [Hlen Hlook].
  destruct (Table_ctor_run T from h w y0 x0 t) as (t1 & Hrun & _);
    [lia | by apply constructed_max |].
  intros tb. exists t1. split; [exact Hrun|].
  intros i wd d t' Hi Hd. subst tb.
  assert (i < length (Table.headers T from))%nat as Hlt.
  { rewrite <- Hlen. by eapply lookup_lt_Some. }
  rewrite (Hlook i Hlt) in Hi. injection Hi as <-.
  assert (strlen (Table.generator T from d i) <=
          foldr Z.max 0 ((fun r => strlen (Table.generator T from r i))
                           <$> Table.data T from)) as Hle.
  { revert Hd. generalize (Table.data T from) as l. intros l Hd.
    induction Hd; rewrite fmap_cons; cbn [foldr]; lia. }
  pose proof (strlen_nonneg (Table.headers T from !!! i)).
  apply cell_fits; [unfold Table.spec_width; lia | unfold Table.spec_width; lia |].
  by apply spec_width_max.
Qed.

(** The first bar of [_write_table] reads one width per header. *)
Lemma bar_undefined (tb : tbl) (line : Z) (gl gm gr : glyph) (t : term) :
  (length (Table._lengths T tb) < length (Table._headers T tb))%nat ->
  Table.bar T tb line gl gm gr t = Undefined.
Proof.
  intros Hshort. unfold Table.bar.
  destruct (draws_mvadd_char (Table.base T tb) line 0 gl t) as ([] & t1 & H1 & _).
  rewrite (bind_done _ _ _ _ _ H1).
  cbv [mbind M_bind bind].
  rewrite (for_acc_undefined _ _ 0 (length (Table._lengths T tb))); [done|lia| |].
  - intros k s' t' Hk.
    repeat first
      [ apply draws_ret | apply draws_mvadd_char | apply draws_if
      | apply draws_at; lia | apply draws_for; intros ? ? ?
      | apply draws_bind; [|intros ? ? _] ].
  - intros s' t'. unfold at_. rewrite lookup_ge_None_2 by lia. done.
Qed.

(** X13: widths supplied for fewer columns than there are headers are not
    rejected: the constructor reads [_lengths] out of range while it draws
    the top bar, which is undefined behaviour. *)
Theorem too_few_widths_is_undefined (from : Table.From T) (h w y0 x0 : Z) (t : term) :
  Table.lengths T from ≠ [] ->
  (length (Table.lengths T from) < length (Table.headers T from))%nat ->
  Table.ctor T from h w y0 x0 t = Undefined.
Proof.
  intros Hne Hshort. unfold Table.ctor, PlainWindow.ctor.
  rewrite (bind_done _ _ t
             (mkTerm (wins t ++ [mkScreenInfo h w y0 x0]) (calls t))
             (PlainWindow.mk (mkScreenInfo h w y0 x0) (length (wins t))))
    by done.
  cbn [Table._lengths]. rewrite (bool_decide_eq_false_2 _ Hne).
  set (tb := Table.mk T _ _ _ _ _).
  assert (forall t0, Table._write_table T tb (-1) t0 = Undefined) as Hwt.
  { intros t0. unfold Table._write_table. cbv [mbind M_bind bind].
    by rewrite bar_undefined. }
  destruct (Table.auto_resize T from).
  - unfold PlainWindow.resize.
    rewrite (bind_done _ _ _ _ _ (resizes_wresize _ _ _ _)).
    cbv [mbind M_bind bind]. by rewrite Hwt.
  - cbv [mbind M_bind bind ret]. by rewrite Hwt.
Qed.

Lemma on_main_mvprintf (p : PlainWindow.t) (y0 x0 : Z) (s : string) (t : term) :
  draws_only (on_window (PlainWindow._main p)) (PlainWindow.mvprintf p y0 x0 s) t.
Proof.
  unfold PlainWindow.mvprintf, mvwprintw, wrefresh.
  draws_only_steps ltac:(reflexivity).
Qed.

Lemma on_main_mvadd_char (p : PlainWindow.t) (y0 x0 : Z) (g : glyph) (t : term) :
  draws_only (on_window (PlainWindow._main p)) (PlainWindow.mvadd_char p y0 x0 g) t.
Proof.
  unfold PlainWindow.mvadd_char, mvwaddch, wrefresh.
  draws_only_steps ltac:(reflexivity).
Qed.

Lemma draws_only_cell (P : call -> Prop) (s : string) (len : Z) (t : term) :
  len <= string_max_size -> draws_only P (Table.cell s len) t.
Proof.
  intros Hmax. destruct (cell_returns s len t Hmax) as [c Hc].
  exists c, t, []. by rewrite app_nil_r.
Qed.

Lemma draws_only_at_width {B} (P : call -> Prop) (ls : list Z) (i : nat)
    (k : Z -> M B) (t : term) :
  (i < length ls)%nat ->
  Forall (fun l => l <= string_max_size) ls ->
  (forall l t', l <= string_max_size -> draws_only P (k l) t') ->
  draws_only P (at_ ls i ≫= k) t.
Proof.
  intros Hi Hmax Hk.
  apply draws_only_bind_run; [by apply draws_only_at|].
  intros l t' Hl. apply Hk. rewrite Forall_forall in Hmax.
  apply Hmax. by eapply at_elem_of.
Qed.

Ltac on_main_steps :=
  repeat first
    [ apply draws_only_ret
    | apply on_main_mvprintf
    | apply on_main_mvadd_char
    | apply draws_only_emit; reflexivity
    | apply draws_only_cell; assumption
    | apply draws_only_if
    | apply draws_only_at_width; [lia | eassumption | intros ? ? ?]
    | apply draws_only_at; lia
    | apply draws_only_for; intros ? ? ?
    | apply draws_only_for_acc; intros ? ? ? ?
    | apply draws_only_bind; [|intros ? ?] ].

Lemma write_table_on_main (tb : tbl) (hl : Z) (t : term) :
  (length (Table._headers T tb) <= length (Table._lengths T tb))%nat ->
  Forall (fun l => l <= string_max_size) (Table._lengths T tb) ->
  draws_only (on_window (PlainWindow._main (Table.base T tb)))
    (Table._write_table T tb hl) t.
Proof.
  intros Hlen Hmax.
  unfold Table._write_table, Table.bar, Table.write_headers, Table.write_row, wattrset.
  on_main_steps.
Qed.

(** X14: with a width for every header, and widths that the [int]
    arithmetic of the drawing code holds, drawing the table and every
    mutator that does not auto-resize ([set_data] without [auto_resize],
    [set_lengths], [set_generator], [highlight_row]) return normally,
    issue calls on the table's own surface only, and leave the size and
    place of every window as they were. *)
Theorem table_draws_on_own_surface (tb : tbl) (t : term) (d : list T)
    (ls : list Z) (g : T -> nat -> string) (row : Z) :
  (length (Table._headers T tb) <= length (Table._lengths T tb))%nat ->
  Table.widths_in_int (Table._lengths T tb) ->
  (length (Table._headers T tb) <= length ls)%nat ->
  Table.widths_in_int ls ->
  let own := on_window (PlainWindow._main (Table.base T tb)) in
  draws_only own (Table._write_table T tb row) t /\
  draws_only own (Table.set_data T tb d false) t /\
  draws_only own (Table.set_lengths T tb ls) t /\
  draws_only own (Table.set_generator T tb g) t /\
  draws_only own (Table.highlight_row T tb row) t.
Proof.
  intros Hlen Hint Hls Hlsint own. subst own.
  apply widths_in_int_max in Hint. apply widths_in_int_max in Hlsint.
  split; [by apply write_table_on_main|].
  unfold Table.set_data, Table.set_lengths, Table.set_generator,
    Table.highlight_row, PlainWindow.erase, werase, wrefresh.
  repeat split.
  - apply draws_only_bind; [apply draws_only_emit; reflexivity|]. intros _ t1.
    apply draws_only_bind_run; [apply draws_only_ret|]. intros tb' t2 [= <- <-].
    apply draws_only_bind; [by apply (write_table_on_main (Table.set_data_field T tb d))|].
    intros _ t3. on_main_steps.
  - apply draws_only_bind; [apply draws_only_emit; reflexivity|]. intros _ t1.
    apply draws_only_bind; [by apply (write_table_on_main (Table.set_lengths_field T tb ls))|].
    intros _ t3. on_main_steps.
  - apply draws_only_bind; [apply draws_only_emit; reflexivity|]. intros _ t1.
    apply draws_only_bind; [by apply (write_table_on_main (Table.set_generator_field T tb g))|].
    intros _ t3. on_main_steps.
  - apply draws_only_bind; [apply draws_only_emit; reflexivity|]. intros _ t1.
    apply draws_only_bind; [by apply write_table_on_main|].
    intros _ t3. on_main_steps.
Qed.

(** X15: a highlight index that is no row of the table, the default -1
    included, draws the table without inverse video.  The table has a
    width for every header, and widths that the [int] arithmetic of the
    drawing code holds, so that it is drawn to the end. *)
Theorem highlight_out_of_range_is_plain (tb : tbl) (hl : Z) (t : term) :
  (length (Table._headers T tb) <= length (Table._lengths T tb))%nat ->
  Table.widths_in_int (Table._lengths T tb) ->
  vsize (Table._data T tb) <= to_size_t hl ->
  draws_only (fun c => ~ goes_reverse c) (Table._write_table T tb hl) t /\
  draws_only (fun c => ~ goes_reverse c) (Table.highlight_row T tb hl) t.
Proof.
  intros Hlen Hint Hout. apply widths_in_int_max in Hint.
  assert (forall t0, draws_only (fun c => ~ goes_reverse c)
                       (Table._write_table T tb hl) t0) as Hwt.
  { intros t0.
    unfold Table._write_table, Table.bar, Table.write_headers, Table.write_row,
      wattrset, PlainWindow.mvprintf, PlainWindow.mvadd_char, mvwprintw,
      mvwaddch, wrefresh.
    repeat first
      [ apply draws_only_ret
      | apply draws_only_emit; by intros []
      | apply draws_only_cell; assumption
      | apply draws_only_at_width; [lia | eassumption | intros ? ? ?]
      | apply draws_only_at; lia
      | apply draws_only_for; intros ? ? ?
      | apply draws_only_for_acc; intros ? ? ? ?
      | rewrite bool_decide_eq_false_2 by (unfold vsize in Hout; lia)
      | apply draws_only_bind; [|intros ? ?]
      | apply draws_only_if ]. }
  split; [apply Hwt|].
  unfold Table.highlight_row, PlainWindow.erase, werase, wrefresh.
  apply draws_only_bind; [apply draws_only_emit; by intros []|]. intros _ t1.
  apply draws_only_bind; [apply Hwt|]. intros _ t2.
  apply draws_only_emit. by intros [].
Qed.
End table_extras.

Lemma cell_pads_or_truncates_witness :
  Table.cell "Al" 4 term0 = Done ("Al  ", term0) /\
  Table.cell "Alexander" 4 term0 = Done ("Alex", term0) /\
  Table.cell "Al" size_max term0 = Throw length_error.
Proof.
  split; [|split].
  - apply (proj1 (cell_pads_or_truncates "Al" 4 term0 ltac:(lia))); by vm_compute.
  - apply (proj1 (proj2 (cell_pads_or_truncates "Alexander" 4 term0 ltac:(lia)))).
    by vm_compute.
  - apply (proj2 (proj2 (cell_pads_or_truncates "Al" size_max term0
                           ltac:(by vm_compute)))).
    by vm_compute.
Defined.

Lemma sample_real_strings (ls : list Z) :
  Table.real_strings _ (Table.headers _ (sample_from ls))
    (Table.data _ (sample_from ls)) (Table.generator _ (sample_from ls)).
Proof.
  split.
  - repeat constructor; by vm_compute.
  - intros r i Hr. cbn in Hr.
    repeat (apply elem_of_cons in Hr as [->|Hr]);
      [| |by apply elem_of_nil in Hr];
      destruct i; by vm_compute.
Qed.

Lemma derived_widths_never_truncate_witness :
  exists t1,
    Table.ctor _ (sample_from []) 10 40 0 0 term0
      = Done (Table.constructed _ (sample_from []) 10 40 0 0 0, t1) /\
    Table.cell "5" 3 term0 = Done ("5  ", term0).
Proof.
  destruct (derived_widths_never_truncate _ (sample_from []) 10 40 0 0 term0 eq_refl
              (sample_real_strings []))
    as (t1 & Hrun & Hcells).
  exists t1. split; [exact Hrun|].
  apply (Hcells 1%nat 3 ("Bo", "5") term0); [reflexivity|].
  apply list_elem_of_In. cbn. tauto.
Defined.

Lemma too_few_widths_is_undefined_witness :
  Table.ctor _ (sample_from [4]) 10 40 0 0 term0 = Undefined.
Proof.
  apply too_few_widths_is_undefined; [discriminate | cbn; lia].
Defined.

Lemma sample_widths_in_int : Table.widths_in_int [4; 3].
Proof. split; [repeat constructor; lia | by vm_compute]. Qed.

Lemma table_draws_on_own_surface_witness :
  draws_only (on_window 0) (Table.highlight_row _ sample_table 1) term0 /\
  draws_only (on_window 0)
    (Table.set_data _ sample_table [("Alexander", "7")] false) term0.
Proof.
  destruct (table_draws_on_own_surface _ sample_table term0 [("Alexander", "7")]
              [4; 3] sample_generator 1) as (_ & Hdata & _ & _ & Hrow).
  - cbn. lia.
  - exact sample_widths_in_int.
  - cbn. lia.
  - exact sample_widths_in_int.
  - split; [exact Hrow | exact Hdata].
Defined.

Lemma highlight_out_of_range_is_plain_witness :
  draws_only (fun c => ~ goes_reverse c) (Table.highlight_row _ sample_table (-1)) term0 /\
  draws_only (fun c => ~ goes_reverse c) (Table.highlight_row _ sample_table 2) term0.
Proof.
  split.
  - apply highlight_out_of_range_is_plain;
      [cbn; lia | exact sample_widths_in_int | by vm_compute].
  - apply highlight_out_of_range_is_plain;
      [cbn; lia | exact sample_widths_in_int | by vm_compute].
Defined.

(** ** The string yielder *)

Lemma substring_0_app (v w : string) :
  String.substring 0 (String.length v) (v +:+ w) = v.
Proof.
  induction v as [|c v IH]; [by destruct w|].
  change (String c (String.substring 0 (String.length v) (v +:+ w)) = String c v).
  by rewrite IH.
Qed.

Lemma pop_back_push_back (v : string) (ch : Z) :
  Yielder.pop_back (Yielder.push_back v ch) = v.
Proof.
  unfold Yielder.pop_back, Yielder.push_back.
  rewrite length_app_string. cbn [String.length].
  replace (String.length v + 1 - 1)%nat with (String.length v) by lia.
  apply substring_0_app.
Qed.

Lemma strlen_push_back (v : string) (ch : Z) :
  strlen (Yielder.push_back v ch) = strlen v + 1.
Proof. unfold Yielder.push_back. rewrite strlen_app. done. Qed.

Lemma strlen_pop_back (v : string) :
  v ≠ EmptyString -> strlen (Yielder.pop_back v) = strlen v - 1.
Proof.
  intros Hne. unfold Yielder.pop_back, strlen. rewrite length_substring_0.
  destruct v; [done|]. cbn. lia.
Qed.

Section yielder_extras.
Variable KEY_BACKSPACE : Z.
Variable isprint : Z -> bool.

Local Abbreviation Tyielder_string := (Yielder.Tyielder_string KEY_BACKSPACE isprint).

(** X16: what [proc] returns tells what it did to the string it points to:
    [RET_NOP] leaves the memory as it is, [RET_PLUS] has appended one
    character and [RET_DEL] has removed the last one; no other string is
    touched, and backspace on the empty string is [RET_NOP]. *)
Theorem proc_return_tells_change (p : nat) (ch : Z) (h : store) (v : string) :
  h !! p = Some v ->
  exists r h',
    Yielder.proc (Tyielder_string p) ch h = Some (r, h') /\
    (forall q, q ≠ p -> h' !! q = h !! q) /\
    match r with
    | Yielder.RET_NOP => h' = h
    | Yielder.RET_PLUS =>
        exists c, h' !! p = Some (v +:+ String c EmptyString) /\ ch ≠ KEY_BACKSPACE
    | Yielder.RET_DEL =>
        exists c, h' !! p = Some (Yielder.pop_back v) /\
                  v = Yielder.pop_back v +:+ String c EmptyString /\
                  ch = KEY_BACKSPACE
    end /\
    (ch = KEY_BACKSPACE -> v = EmptyString -> r = Yielder.RET_NOP).
Proof.
  intros Hv. cbn. rewrite Hv. cbn.
  case_bool_decide as Hbs.
  - case_bool_decide as Hempty; cbn.
    + eexists _, _. split; [reflexivity|]. split; [done|]. split; [done|]. done.
    + eexists _, _. split; [reflexivity|].
      split; [intros q Hq; by rewrite lookup_insert_ne|]. split; [|done].
      assert (exists c, v = Yielder.pop_back v +:+ String c EmptyString) as [c Hc].
      { clear Hv. unfold Yielder.pop_back.
        induction v as [|a v IH]; [done|].
        destruct v as [|b v].
        - by exists a.
        - destruct IH as [c Hc]; [done|]. exists c.
          cbn [String.length] in *.
          replace (S (S (String.length v)) - 1)%nat with (S (String.length v)) by lia.
          replace (S (String.length v) - 1)%nat with (String.length v) in Hc by lia.
          change (String a (String b v) =
                  String a (String.substring 0 (String.length v) (String b v)
                            +:+ String c EmptyString)).
          by rewrite <- Hc. }
      exists c. split; [by rewrite lookup_insert_eq|]. done.
  - destruct (isprint ch); cbn.
    + eexists _, _. split; [reflexivity|].
      split; [intros q Hq; by rewrite lookup_insert_ne|]. split; [|done].
      eexists. split; [by rewrite lookup_insert_eq | done].
    + eexists _, _. split; [reflexivity|]. done.
Qed.

(** X17: typing a printable character and then backspace gives back the
    memory as it was: the two calls return [RET_PLUS] and [RET_DEL]. *)
Theorem type_then_backspace (p : nat) (ch : Z) (h : store) (v : string) :
  h !! p = Some v -> ch ≠ KEY_BACKSPACE -> isprint ch = true ->
  exists h1,
    Yielder.proc (Tyielder_string p) ch h = Some (Yielder.RET_PLUS, h1) /\
    Yielder.content (Tyielder_string p) h1 = Some (Yielder.push_back v ch) /\
    Yielder.proc (Tyielder_string p) KEY_BACKSPACE h1 = Some (Yielder.RET_DEL, h).
Proof.
  intros Hv Hne Hprint. cbn. rewrite Hv. cbn.
  rewrite (bool_decide_eq_false_2 _ Hne), Hprint.
  eexists. split; [reflexivity|].
  rewrite lookup_insert_eq. split; [done|].
  rewrite (bool_decide_eq_true_2 (KEY_BACKSPACE = KEY_BACKSPACE)) by done. cbn.
  rewrite bool_decide_eq_false_2.
  - cbn. rewrite insert_insert_eq, pop_back_push_back. by rewrite insert_id.
  - unfold Yielder.push_back. by destruct v.
Qed.
End yielder_extras.

Lemma proc_return_tells_change_witness :
  exists r h',
    Yielder.proc (Yielder.Tyielder_string 263 isprint_C 0) 263 {[ 0%nat := "ab" ]}
      = Some (r, h') /\
    forall q, q ≠ 0%nat -> h' !! q = ({[ 0%nat := "ab" ]} : store) !! q.
Proof.
  destruct (proc_return_tells_change 263 isprint_C 0 263 {[ 0%nat := "ab" ]} "ab")
    as (r & h' & Hrun & Hother & _).
  - reflexivity.
  - exists r, h'. split; [exact Hrun | exact Hother].
Defined.

Lemma type_then_backspace_witness :
  exists h1,
    Yielder.proc (Yielder.Tyielder_string 263 isprint_C 0) 99 {[ 0%nat := "ab" ]}
      = Some (Yielder.RET_PLUS, h1) /\
    Yielder.content (Yielder.Tyielder_string 263 isprint_C 0) h1 = Some "abc".
Proof.
  destruct (type_then_backspace 263 isprint_C 0 99 {[ 0%nat := "ab" ]} "ab")
    as (h1 & Hplus & Hcontent & _).
  - reflexivity.
  - lia.
  - reflexivity.
  - exists h1. split; [exact Hplus | exact Hcontent].
Defined.

(** ** More on the field editor *)

Lemma substring_suffix (n m : nat) (s : string) :
  (n <= String.length s)%nat -> (String.length s <= n + m)%nat ->
  exists pre, s = pre +:+ String.substring n m s /\ String.length pre = n.
Proof.
  revert s. induction n as [|n IH]; intros s Hn Hm.
  - exists EmptyString. rewrite substring_0_all by lia. done.
  - destruct s as [|c s]; [cbn in Hn; lia|].
    destruct (IH s) as (pre & Hpre & Hlen); [cbn in Hn; lia | cbn in Hm; lia|].
    exists (String c pre). split; [|cbn; lia].
    change (String c s = String c (pre +:+ String.substring n m s)).
    by rewrite <- Hpre.
Qed.

Section editor_extras.
Variables KEY_UP KEY_DOWN : Z.

Local Abbreviation _check_movement_input :=
  (FieldEditor._check_movement_input KEY_UP KEY_DOWN).
Local Abbreviation loop_body := (FieldEditor.loop_body KEY_UP KEY_DOWN).
Local Abbreviation yield_loop := (FieldEditor.yield_loop KEY_UP KEY_DOWN).
Local Abbreviation yield := (FieldEditor.yield KEY_UP KEY_DOWN).
Local Abbreviation focus_next := (focus_after KEY_UP KEY_DOWN).

(** X18: whatever the key, the movement check keeps the focus within
    [0, N], N being the number of fields and the position of OK; it leaves
    the labels alone and never clears a flag that is set. *)
Theorem focus_stays_in_range (c fld : Z) (e : FieldEditor.t) :
  0 <= fld <= vsize (FieldEditor._fields e) ->
  vsize (FieldEditor._fields e) < int_max ->
  let r := _check_movement_input c fld e in
  0 <= r.1.2 <= vsize (FieldEditor._fields e) /\
  FieldEditor._fields r.2 = FieldEditor._fields e /\
  FieldEditor.base r.2 = FieldEditor.base e /\
  (FieldEditor._quit e = true -> FieldEditor._quit r.2 = true) /\
  (FieldEditor._escape e = true -> FieldEditor._escape r.2 = true).
Proof.
  intros Hfld HN.
  assert (to_size_t fld = fld) as Hsz
    by (apply to_size_t_small; unfold int_max in *; lia).
  assert (to_int (fld - 1) = fld - 1 /\ to_int (fld + 1) = fld + 1) as [Hm Hp]
    by (split; apply to_int_id; unfold is_int, int_min, int_max in *; lia).
  clear HN. cbn zeta. unfold FieldEditor._check_movement_input.
  rewrite Hsz, Hm, Hp.
  destruct e as [b fs q esc]; cbn in *.
  repeat case_bool_decide; cbn; repeat split; try done; lia.
Qed.

(** X19: Up and Down move the focus by one and stop at field 0 and at OK:
    there is no wrap-around, and neither key sets a flag. *)
Theorem up_down_do_not_wrap (fld : Z) (e : FieldEditor.t) :
  KEY_UP ≠ KEY_DOWN ->
  0 <= fld <= vsize (FieldEditor._fields e) ->
  vsize (FieldEditor._fields e) < int_max ->
  _check_movement_input KEY_UP fld e = (true, Z.max 0 (fld - 1), e) /\
  _check_movement_input KEY_DOWN fld e
    = (true, Z.min (fld + 1) (vsize (FieldEditor._fields e)), e).
Proof.
  intros Hne Hfld HN.
  assert (to_size_t fld = fld) as Hsz
    by (apply to_size_t_small; unfold int_max in *; lia).
  assert (to_int (fld - 1) = fld - 1 /\ to_int (fld + 1) = fld + 1) as [Hm Hp]
    by (split; apply to_int_id; unfold is_int, int_min, int_max in *; lia).
  clear HN. unfold FieldEditor._check_movement_input.
  rewrite (bool_decide_eq_true_2 (KEY_UP = KEY_UP)) by done.
  rewrite (bool_decide_eq_false_2 (KEY_DOWN = KEY_UP)) by congruence.
  rewrite (bool_decide_eq_true_2 (KEY_DOWN = KEY_DOWN)) by done.
  rewrite Hsz, Hm, Hp.
  split; repeat case_bool_decide; do 2 f_equal; lia.
Qed.

(** Tab moves on to the next position and from OK to field 0. *)
Lemma tab_focus (fld : Z) (e : FieldEditor.t) :
  KEY_UP ≠ 9 -> KEY_DOWN ≠ 9 ->
  0 <= fld <= vsize (FieldEditor._fields e) ->
  vsize (FieldEditor._fields e) < int_max ->
  focus_next e 9 fld = (fld + 1) mod (vsize (FieldEditor._fields e) + 1).
Proof.
  intros Hup Hdown Hfld HN.
  assert (to_size_t fld = fld) as Hsz
    by (apply to_size_t_small; unfold int_max in *; lia).
  assert (to_int (fld + 1) = fld + 1) as Hp
    by (apply to_int_id; unfold is_int, int_min, int_max in *; lia).
  clear HN. unfold focus_after, FieldEditor._check_movement_input.
  rewrite (bool_decide_eq_false_2 (9 = KEY_UP)) by congruence.
  rewrite (bool_decide_eq_false_2 (9 = KEY_DOWN)) by congruence.
  rewrite (bool_decide_eq_false_2 (9 = 10)) by done.
  rewrite (bool_decide_eq_true_2 (9 = 9)) by done.
  cbn. rewrite Hsz, Hp. case_bool_decide as Hok.
  - rewrite Hok, Z.mod_same by lia. done.
  - rewrite Z.mod_small by lia. done.
Qed.

(** X20: Tab cycles through the fields and OK: from OK it goes to field 0,
    and N + 1 Tabs in a row bring the focus back to where it was. *)
Theorem tab_cycles (fld : Z) (e : FieldEditor.t) :
  KEY_UP ≠ 9 -> KEY_DOWN ≠ 9 ->
  0 <= fld <= vsize (FieldEditor._fields e) ->
  vsize (FieldEditor._fields e) < int_max ->
  focus_next e 9 (vsize (FieldEditor._fields e)) = 0 /\
  Nat.iter (S (length (FieldEditor._fields e))) (focus_next e 9) fld = fld.
Proof.
  intros Hup Hdown Hfld HN.
  set (N := vsize (FieldEditor._fields e)) in *.
  assert (0 <= N) by lia.
  split.
  { rewrite (tab_focus N e Hup Hdown) by (subst N; lia). fold N.
    apply Z.mod_same. lia. }
  assert (forall k, Nat.iter k (focus_next e 9) fld = (fld + Z.of_nat k) mod (N + 1))
    as Hiter.
  { induction k as [|k IH].
    - cbn. rewrite Z.add_0_r, Z.mod_small; [done|lia].
    - rewrite Nat.iter_succ, IH.
      pose proof (Z.mod_pos_bound (fld + Z.of_nat k) (N + 1) ltac:(lia)).
      rewrite (tab_focus _ e Hup Hdown) by (fold N; lia). fold N.
      rewrite Z.add_mod_idemp_l by lia. f_equal. lia. }
  rewrite Hiter.
  replace (fld + Z.of_nat (S (length (FieldEditor._fields e))))
    with (fld + 1 * (N + 1)) by (subst N; unfold vsize; lia).
  rewrite Z.mod_add by lia. apply Z.mod_small. lia.
Qed.

(** A key that no [case] of the movement check names. *)
Lemma check_other (c fld : Z) (e : FieldEditor.t) :
  c ≠ KEY_UP -> c ≠ KEY_DOWN -> c ≠ 10 -> c ≠ 9 -> c ≠ 27 ->
  _check_movement_input c fld e = (false, fld, e).
Proof.
  intros. unfold FieldEditor._check_movement_input.
  by rewrite !bool_decide_eq_false_2.
Qed.

(** X21: with the focus on OK a key that is none of Up, Tab, Enter and
    Escape is swallowed: the loop body redraws OK in inverse video and goes
    on with the object, focus, memory and trace of [proc] calls unchanged,
    whatever the yielders. *)
Theorem keys_on_ok_are_swallowed (c : Z) (ys : list Yielder.t)
    (s : FieldEditor.state) (t : term) :
  c ≠ KEY_UP -> c ≠ 10 -> c ≠ 9 -> c ≠ 27 ->
  FieldEditor.field s = vsize (FieldEditor._fields (FieldEditor.editor s)) ->
  vsize (FieldEditor._fields (FieldEditor.editor s)) < int_max ->
  FieldEditor._quit (FieldEditor.editor s) = false ->
  exists t',
    loop_body c ys s t = Done ((s, true), t') /\ wins t' = wins t /\
    exists cs, calls t' = calls t ++ c_curs_set 0 :: cs /\
      Forall (on_window (DecoratedWindow._main (FieldEditor.base (FieldEditor.editor s)))) cs.
Proof.
  intros Hup Henter Htab Hesc Hok HN Hquit.
  destruct s as [e fld mem disp]. cbn in *. subst fld.
  set (N := vsize (FieldEditor._fields e)) in *.
  assert (0 <= N) by (subst N; unfold vsize; lia).
  assert (to_size_t N = N) as Hsz by (apply to_size_t_small; unfold int_max in *; lia).
  assert (exists moved, _check_movement_input c N e = (moved, N, e)) as [moved Hchk].
  { destruct (decide (c = KEY_DOWN)) as [->|Hdown].
    - exists true. unfold FieldEditor._check_movement_input.
      rewrite (bool_decide_eq_false_2 (KEY_DOWN = KEY_UP)) by done.
      rewrite (bool_decide_eq_true_2 (KEY_DOWN = KEY_DOWN)) by done.
      fold N. rewrite Hsz. rewrite bool_decide_eq_false_2 by lia. done.
    - exists false. by apply check_other. }
  clear HN. unfold FieldEditor.loop_body. cbn. rewrite Hchk, Hquit.
  fold N. rewrite Hsz. rewrite bool_decide_eq_true_2 by lia.
  unfold curs_set. rewrite (bind_done _ _ _ _ _ (emit_run _ _)).
  assert (draws_only (on_window (DecoratedWindow._main (FieldEditor.base e)))
            (FieldEditor._print_ok e true)
            (mkTerm (wins t) (calls t ++ [c_curs_set 0])))
    as (a & t' & cs & Hrun & Hw & Hcs & Hon).
  { unfold FieldEditor._print_ok, PlainWindow.attribute_set, PlainWindow.mvprintf,
      wattrset, mvwprintw, wrefresh.
    draws_only_steps ltac:(reflexivity). }
  destruct a. rewrite (bind_done _ _ _ _ _ Hrun).
  exists t'. split; [done|]. split; [done|].
  exists cs. split; [|done]. rewrite Hcs. cbn. by rewrite <- app_assoc.
Qed.

(** X22: a key that is no movement key, with the focus on a field, goes to
    the yielder of that field and to no other: the memory after the loop
    body is the one that [proc] hands back, the trace of [proc] calls grows
    by this one call, and the field's line is redrawn only when [proc]
    reports a change. *)
Theorem other_key_goes_to_focused_yielder (c : Z) (ys : list Yielder.t)
    (s : FieldEditor.state) (t : term) (yl : Yielder.t) (cnt : string)
    (r : Yielder.Ret) (h' : store) :
  c ≠ KEY_UP -> c ≠ KEY_DOWN -> c ≠ 10 -> c ≠ 9 -> c ≠ 27 ->
  0 <= FieldEditor.field s < vsize (FieldEditor._fields (FieldEditor.editor s)) ->
  is_int (FieldEditor.field s) ->
  FieldEditor._quit (FieldEditor.editor s) = false ->
  ys !! Z.to_nat (FieldEditor.field s) = Some yl ->
  Yielder.content yl (FieldEditor.memory s) = Some cnt ->
  Yielder.proc yl c (FieldEditor.memory s) = Some (r, h') ->
  let s' := FieldEditor.mkState (FieldEditor.editor s) (FieldEditor.field s) h'
              (FieldEditor.dispatched s ++ [(FieldEditor.field s, c)]) in
  exists t1,
    wins t1 = wins t /\
    loop_body c ys s t =
      ((match r with
        | Yielder.RET_NOP => ret tt
        | _ => FieldEditor._update_field (FieldEditor.editor s) (FieldEditor.field s) ys h'
        end) ≫= fun _ => ret (s', true)) t1 /\
    (r = Yielder.RET_NOP -> loop_body c ys s t = Done ((s', true), t1)).
Proof.
  intros Hup Hdown Henter Htab Hesc Hfld Hint Hquit Hyl Hcnt Hproc s'. subst s'.
  destruct s as [e fld mem disp]. cbn in *.
  assert (to_size_t fld = fld) as Hsz
    by (apply to_size_t_small; unfold is_int in Hint; lia).
  destruct (lookup_lt_is_Some_2 (FieldEditor._fields e) (Z.to_nat fld)) as [f Hf].
  { unfold vsize in Hfld. lia. }
  unfold FieldEditor.loop_body. cbn. rewrite check_other, Hquit by done.
  rewrite bool_decide_eq_false_2 by (rewrite Hsz; lia).
  destruct (draws_emit (c_curs_set 1) t) as ([] & t1 & H1 & W1).
  unfold curs_set. rewrite (bind_done _ _ _ _ _ H1).
  destruct (draws_field_print_ok e false t1) as ([] & t2 & H2 & W2).
  rewrite (bind_done _ _ _ _ _ H2).
  destruct (draws_cursor_column e fld ys mem t2 f yl cnt) as (col & t3 & H3 & W3);
    rewrite ?Hsz; try done.
  rewrite (bind_done _ _ _ _ _ H3).
  destruct (draws_emit (c_wmove (PlainWindow._main (FieldEditor.plain e)) fld col) t3)
    as ([] & t4 & H4 & W4).
  unfold PlainWindow.cursor, wmove. rewrite (bind_done _ _ _ _ _ H4).
  cbv beta iota. unfold at_size, at_. rewrite Hyl.
  exists t4. split; [congruence|].
  rewrite (bind_done _ _ t4 t4 yl) by done.
  rewrite Hproc. unfold lift. rewrite (bind_done _ _ t4 t4 (r, h')) by done.
  split; [done|]. by intros ->.
Qed.

(** X23: [_update_field] prints the label, two spaces and the end of the
    content: all of it when it fits, otherwise its last
    width - label - 5 characters, so that the line never takes more than
    width - 3 cells; a label longer than width - 5 makes [substr] throw
    [std::out_of_range]. *)
Theorem field_line_fits_or_scrolls (e : FieldEditor.t) (fld : Z)
    (ys : list Yielder.t) (h : store) (t : term)
    (yl : Yielder.t) (c f : string) :
  0 <= fld <= int_max ->
  ys !! Z.to_nat fld = Some yl ->
  Yielder.content yl h = Some c ->
  FieldEditor._fields e !! Z.to_nat fld = Some f ->
  0 <= width (FieldEditor.info e) <= int_max ->
  strlen f + strlen c + 6 <= size_max ->
  let W := width (FieldEditor.info e) in
  let main := DecoratedWindow._main (FieldEditor.base e) in
  (W < strlen f + 5 ->
   FieldEditor._update_field e fld ys h t = Throw out_of_range) /\
  (strlen f + 5 <= W ->
   exists pre sub,
     c = pre +:+ sub /\
     strlen sub = Z.min (strlen c) (W - strlen f - 5) /\
     strlen (f +:+ "  " +:+ sub) <= W - 3 /\
     FieldEditor._update_field e fld ys h t =
     Done (tt, mkTerm (wins t)
                 (calls t ++ [c_wmove main fld 0; c_wclrtoeol main;
                              c_mvwprintw main fld 0 (f +:+ "  " +:+ sub);
                              c_wrefresh main]))).
Proof.
  intros Hfld Hyl Hc Hf HW Hsize W main.
  pose proof (strlen_nonneg f) as Hf0. pose proof (strlen_nonneg c) as Hc0.
  assert (forall z, 0 <= z <= size_max -> to_size_t z = z) as Hsz.
  { intros z Hz. unfold to_size_t, size_max in *. apply Z.mod_small. lia. }
  assert (int_max <= size_max) as Hmax by (unfold int_max, size_max; lia).
  unfold FieldEditor._update_field, at_size, at_, lift.
  rewrite (Hsz fld) by lia. rewrite Hyl, Hf.
  rewrite (bind_done _ _ t t yl) by done. rewrite Hc.
  rewrite (bind_done _ _ t t c) by done.
  rewrite (bind_done _ _ t t f) by done.
  fold W. rewrite (Hsz (strlen f + 1)) by lia.
  rewrite (Hsz (strlen f + 1 + strlen c)) by lia.
  rewrite (Hsz (strlen f + 1 + strlen c + 5)) by lia.
  rewrite (Hsz W) by (subst W; lia).
  rewrite (Hsz (strlen f + 1 + strlen c + 4)) by lia.
  split.
  - intros Hwide.
    rewrite bool_decide_eq_true_2 by lia.
    rewrite (Hsz (strlen f + 1 + strlen c + 4 - W)) by lia.
    rewrite bool_decide_eq_true_2 by lia. reflexivity.
  - intros Hnarrow.
    destruct (decide (strlen f + 1 + strlen c + 5 > W)) as [Hscroll|Hfits].
    + rewrite (bool_decide_eq_true_2 _ Hscroll).
      rewrite (Hsz (strlen f + 1 + strlen c + 4 - W)) by lia.
      rewrite bool_decide_eq_false_2 by lia.
      set (off := Z.to_nat (strlen f + 1 + strlen c + 4 - W)).
      destruct (substring_suffix off (String.length c) c) as (pre & Hpre & Hlen);
        [unfold strlen in *; subst off; lia | lia |].
      exists pre, (String.substring off (String.length c) c).
      assert (strlen (String.substring off (String.length c) c)
              = W - strlen f - 5) as Hsub.
      { apply (f_equal strlen) in Hpre. rewrite strlen_app in Hpre.
        unfold strlen at 2 in Hpre. rewrite Hlen in Hpre. subst off. lia. }
      split; [exact Hpre|]. split; [lia|]. split.
      * rewrite !strlen_app, Hsub. change (strlen "  ") with 2. lia.
      * rewrite (bind_done _ _ t t (String.substring off (String.length c) c)) by done.
        unfold PlainWindow.cursor, PlainWindow.mvprintf, wmove, wclrtoeol,
          mvwprintw, wrefresh.
        rewrite !(bind_done _ _ _ _ _ (emit_run _ _)), emit_run. cbn [wins calls].
        rewrite <- !app_assoc. reflexivity.
    + rewrite (bool_decide_eq_false_2 _ Hfits).
      exists EmptyString, c. split; [done|]. split; [lia|]. split.
      * rewrite !strlen_app. change (strlen "  ") with 2. lia.
      * rewrite (bind_done _ _ t t c) by done.
        unfold PlainWindow.cursor, PlainWindow.mvprintf, wmove, wclrtoeol,
          mvwprintw, wrefresh.
        rewrite !(bind_done _ _ _ _ _ (emit_run _ _)), emit_run. cbn [wins calls].
        rewrite <- !app_assoc. reflexivity.
Qed.

Lemma longest_nonneg (l : list string) : 0 <= longest l.
Proof. unfold longest. induction l as [|f l IH]; cbn; lia. Qed.

Lemma longest_ge (l : list string) (f : string) : f ∈ l -> strlen f <= longest l.
Proof. unfold longest. induction 1; cbn; lia. Qed.

Lemma foldl_max_longest (l : list string) (a : Z) :
  0 <= a -> foldl (fun m f => Z.max m (strlen f)) a l = Z.max a (longest l).
Proof.
  revert a. induction l as [|f l IH]; intros a Ha; cbn.
  - unfold longest. cbn. lia.
  - rewrite IH by lia. unfold longest. cbn. lia.
Qed.

Lemma resize_str_pads (f : string) (n : Z) :
  strlen f <= n ->
  resize_str f n = f +:+ spaces (Z.to_nat (n - strlen f)) /\
  strlen (resize_str f n) = n.
Proof.
  intros Hn. unfold resize_str. rewrite bool_decide_eq_false_2 by lia.
  split; [done|]. rewrite strlen_app, strlen_spaces. lia.
Qed.

(** X24: the constructor pads every label with spaces to the length of
    the longest name plus 2, so that all labels are equally long and each
    starts with its name; both flags start cleared. *)
Theorem labels_are_padded_alike (title : string) (fnames : list string)
    (i : ScreenInfo) (t : term) :
  longest fnames + 2 <= size_max ->
  exists e t1,
    FieldEditor.ctor title fnames i t = Done (e, t1) /\
    FieldEditor._fields e =
      (fun f => f +:+ spaces (Z.to_nat (longest fnames + 2 - strlen f))) <$> fnames /\
    Forall (fun f => strlen f = longest fnames + 2) (FieldEditor._fields e) /\
    FieldEditor._quit e = false /\ FieldEditor._escape e = false.
Proof.
  intros Hsize. pose proof (longest_nonneg fnames) as Hlong.
  destruct (DecoratedWindow_ctor_run title (height i) (width i) (y i) (x i) t)
    as (d & t1 & Hrun & _).
  unfold FieldEditor.ctor, DecoratedWindow.ctor_info.
  rewrite (bind_done _ _ _ _ _ Hrun).
  rewrite foldl_max_longest by lia.
  replace (Z.max 0 (longest fnames)) with (longest fnames) by lia.
  assert (to_size_t (longest fnames + 2) = longest fnames + 2) as ->.
  { unfold to_size_t, size_max in *. apply Z.mod_small. lia. }
  set (fields := (fun f => resize_str f (longest fnames + 2)) <$> fnames).
  assert (fields =
          (fun f => f +:+ spaces (Z.to_nat (longest fnames + 2 - strlen f))) <$> fnames)
    as Hfields.
  { subst fields. apply list_fmap_ext. intros k f Hk.
    apply resize_str_pads. apply list_elem_of_lookup_2 in Hk.
    pose proof (longest_ge fnames f Hk). lia. }
  set (e := FieldEditor.mk d fields false false).
  match goal with
  | |- context [for_acc 0 (length fields) ?body 0] =>
      destruct (draws_for_acc body (length fields) 0 0 t1) as (a1 & t2 & H2 & _)
  end.
  { intros k s' t' Hk.
    repeat first
      [ apply draws_ret | apply draws_mvprintf | apply draws_at; lia
      | apply draws_bind; [|intros ? ? _] ]. }
  rewrite (bind_done _ _ _ _ _ H2).
  destruct (draws_field_print_ok e false t2) as ([] & t3 & H3 & _).
  rewrite (bind_done _ _ _ _ _ H3).
  exists e, t3. split; [done|]. split; [exact Hfields|]. split; [|done].
  subst e fields. cbn. apply Forall_fmap, Forall_forall. intros f Hin. cbn.
  apply resize_str_pads. pose proof (longest_ge fnames f Hin). lia.
Qed.

(** X25: an editor without fields cannot be run: after its first calls
    [yield] reads [_fields[0]], which is undefined behaviour. *)
Theorem yield_without_fields_is_undefined (keys : list Z) (e : FieldEditor.t)
    (ys : list Yielder.t) (h : store) (t : term) :
  FieldEditor._fields e = [] ->
  yield keys e ys h t = Undefined.
Proof.
  intros Hnil.
  unfold FieldEditor.yield, FieldEditor.prologue, keypad, noecho.
  rewrite Hnil.
  cbv [mbind M_bind bind emit for_ for_acc length ret FieldEditor.cursor_column
       at_size at_ undefined].
  rewrite Hnil. reflexivity.
Qed.

(** X26: a key code 0 ends the loop at once: no flag is set, nothing is
    dispatched, and [yield] returns [true] unless the escape flag was
    already set, with object, focus and memory as they were. *)
Theorem key_zero_ends_the_interaction (keys : list Z) (e : FieldEditor.t)
    (ys : list Yielder.t) (h : store) (t t1 : term) :
  FieldEditor.prologue e ys h t = Done (tt, t1) ->
  yield (0 :: keys) e ys h t =
  Done ((negb (FieldEditor._escape e), FieldEditor.mkState e 0 h [], keys),
        mkTerm (wins t1) (calls t1 ++ [c_curs_set 0])).
Proof.
  intros Hpro. unfold FieldEditor.yield.
  rewrite (bind_done _ _ _ _ _ Hpro). reflexivity.
Qed.

(** X27: [_quit] is never reset.  On an editor whose [_quit] is set, the
    loop is left after the first key, whatever it is: nothing is
    dispatched and the memory is untouched; [yield] returns the earlier
    verdict again, or [false] if the key is an Escape. *)
Theorem yield_after_quit (c : Z) (keys : list Z) (e : FieldEditor.t)
    (ys : list Yielder.t) (h : store) (t t1 : term) :
  c ≠ 0 ->
  FieldEditor._quit e = true ->
  FieldEditor.prologue e ys h t = Done (tt, t1) ->
  exists b s,
    yield (c :: keys) e ys h t =
      Done ((b, s, keys), mkTerm (wins t1) (calls t1 ++ [c_curs_set 0])) /\
    FieldEditor.memory s = h /\ FieldEditor.dispatched s = [] /\
    FieldEditor._quit (FieldEditor.editor s) = true /\
    FieldEditor._fields (FieldEditor.editor s) = FieldEditor._fields e /\
    (FieldEditor._escape e = true -> b = false) /\
    (c ≠ 27 -> b = negb (FieldEditor._escape e)).
Proof.
  intros Hc Hquit Hpro. unfold FieldEditor.yield.
  rewrite (bind_done _ _ _ _ _ Hpro).
  cbn [FieldEditor.yield_loop]. rewrite (bool_decide_eq_false_2 _ Hc).
  unfold FieldEditor.loop_body. cbn [FieldEditor.editor FieldEditor.field
    FieldEditor.memory FieldEditor.dispatched].
  destruct (_check_movement_input c 0 e) as [[moved fld] e'] eqn:Hchk.
  assert (FieldEditor._quit e' = true /\
          FieldEditor._fields e' = FieldEditor._fields e /\
          (FieldEditor._escape e = true -> FieldEditor._escape e' = true) /\
          (c ≠ 27 -> FieldEditor._escape e' = FieldEditor._escape e))
    as (Hq' & Hf' & He1 & He2).
  { revert Hchk. unfold FieldEditor._check_movement_input.
    destruct e as [b fs q esc]; cbn in *. subst q.
    repeat case_bool_decide; intros [= <- <- <-]; cbn; repeat split; try done;
      congruence. }
  rewrite Hq'. cbn.
  eexists _, _. split; [reflexivity|]. cbn.
  repeat split; try done.
  - intros Hesc. by rewrite He1.
  - intros Hne. by rewrite He2.
Qed.
End editor_extras.

Lemma focus_stays_in_range_witness :
  0 <= (FieldEditor._check_movement_input 259 258 258 2 (sample_editor false false)).1.2
    <= 2.
Proof.
  apply (proj1 (focus_stays_in_range 259 258 258 2 (sample_editor false false)
                  ltac:(by vm_compute) ltac:(by vm_compute))).
Defined.

Lemma up_down_do_not_wrap_witness :
  FieldEditor._check_movement_input 259 258 259 0 (sample_editor false false)
  = (true, 0, sample_editor false false).
Proof.
  apply (proj1 (up_down_do_not_wrap 259 258 0 (sample_editor false false)
                  ltac:(lia) ltac:(by vm_compute) ltac:(by vm_compute))).
Defined.

Lemma tab_cycles_witness :
  Nat.iter 3 (focus_after 259 258 (sample_editor false false) 9) 1 = 1.
Proof.
  apply (proj2 (tab_cycles 259 258 1 (sample_editor false false)
                  ltac:(lia) ltac:(lia) ltac:(by vm_compute) ltac:(by vm_compute))).
Defined.

Lemma keys_on_ok_are_swallowed_witness :
  exists t',
    FieldEditor.loop_body 259 258 120 []
      (FieldEditor.mkState (sample_editor false false) 2 sample_memory []) term0
    = Done ((FieldEditor.mkState (sample_editor false false) 2 sample_memory [], true), t').
Proof.
  destruct (keys_on_ok_are_swallowed 259 258 120 []
              (FieldEditor.mkState (sample_editor false false) 2 sample_memory [])
              term0) as (t' & Hrun & _); try lia; try reflexivity.
  by exists t'.
Defined.

Lemma other_key_goes_to_focused_yielder_witness :
  exists t1,
    FieldEditor.loop_body 259 258 97 [Yielder.base_yielder]
      (FieldEditor.mkState (sample_editor false false) 0 sample_memory []) term0
    = Done ((FieldEditor.mkState (sample_editor false false) 0 sample_memory [(0, 97)],
             true), t1).
Proof.
  destruct (other_key_goes_to_focused_yielder 259 258 97 [Yielder.base_yielder]
              (FieldEditor.mkState (sample_editor false false) 0 sample_memory [])
              term0 Yielder.base_yielder EmptyString Yielder.RET_NOP sample_memory)
    as (t1 & _ & _ & Hnop); try lia; try reflexivity; try (by vm_compute).
  exists t1. by apply Hnop.
Defined.

Lemma field_line_fits_or_scrolls_witness :
  exists pre sub,
    "hello" = pre +:+ sub /\
    strlen sub = 5 /\
    FieldEditor._update_field (sample_editor false false) 0 sample_yielders
      sample_memory term0 =
    Done (tt, mkTerm [] [c_wmove 3 0 0; c_wclrtoeol 3;
                         c_mvwprintw 3 0 0 ("Name   " +:+ "  " +:+ sub);
                         c_wrefresh 3]).
Proof.
  destruct (field_line_fits_or_scrolls (sample_editor false false) 0 sample_yielders
              sample_memory term0 (Yielder.Tyielder_string 263 isprint_C 0)
              "hello" "Name   ") as [_ Hfit]; try reflexivity; try (by vm_compute).
  destruct Hfit as (pre & sub & Hpre & Hlen & _ & Hrun); [by vm_compute|].
  exists pre, sub. split; [exact Hpre|]. split; [exact Hlen | exact Hrun].
Defined.

Lemma labels_are_padded_alike_witness :
  exists e t1,
    FieldEditor.ctor "Form" ["Name"; "Email"] (mkScreenInfo 12 30 0 0) term0
      = Done (e, t1) /\
    FieldEditor._fields e = ["Name   "; "Email  "].
Proof.
  destruct (labels_are_padded_alike "Form" ["Name"; "Email"]
              (mkScreenInfo 12 30 0 0) term0) as (e & t1 & Hrun & Hfields & _).
  - by vm_compute.
  - exists e, t1. split; [exact Hrun | exact Hfields].
Defined.

Lemma yield_without_fields_is_undefined_witness :
  FieldEditor.yield 259 258 [27] (FieldEditor.mk (sample_decorated "Form") [] false false)
    [] ∅ term0 = Undefined.
Proof. by apply yield_without_fields_is_undefined. Defined.

Lemma key_zero_ends_the_interaction_witness :
  value (FieldEditor.yield 259 258 [0; 97] (sample_editor false false) sample_yielders
           sample_memory term0)
  = Some (true, FieldEditor.mkState (sample_editor false false) 0 sample_memory [], [97]).
Proof.
  assert (exists t1, FieldEditor.prologue (sample_editor false false) sample_yielders
                       sample_memory term0 = Done (tt, t1)) as [t1 Hpro]
    by (eexists; reflexivity).
  by rewrite (key_zero_ends_the_interaction 259 258 [97] _ _ _ _ t1 Hpro).
Defined.

Lemma yield_after_quit_witness :
  exists s,
    value (FieldEditor.yield 259 258 [97; 98] (sample_editor true false) sample_yielders
             sample_memory term0)
    = Some (true, s, [98]) /\
    FieldEditor.memory s = sample_memory.
Proof.
  assert (exists t1, FieldEditor.prologue (sample_editor true false) sample_yielders
                       sample_memory term0 = Done (tt, t1)) as [t1 Hpro]
    by (eexists; reflexivity).
  destruct (yield_after_quit 259 258 97 [98] (sample_editor true false) sample_yielders
              sample_memory term0 t1) as (b & s & Hrun & Hmem & _ & _ & _ & _ & Hb);
    [lia | reflexivity | exact Hpro |].
  exists s. rewrite Hrun, (Hb ltac:(lia)). cbn. done.
Defined.
